(** * The MIoT air purifier client ([miio/airpurifier_miot.py])

    A shallow embedding of the status container [AirPurifierMiotStatus],
    of the filter-type classifier with its class-level cache, and of the
    validating setters of [AirPurifierMiot], followed by the properties
    of the specification that speak about them.

    A Python string that comes from the device is a list of code points
    ([pystr]), so that the class [\d] of a [str] pattern is what it is in
    Python: the decimal digits of Unicode.  The texts of the program
    itself (keys, messages, ["on"] and ["off"]) are [string] literals;
    the keys of a mapping are only ever compared with such literals and
    are [string]s too.
    Raw property values are the scalars a property read delivers: [None],
    booleans, integers and strings. *)

From Stdlib Require Import ZArith NArith Lia Bool Ascii String List.
From stdpp Require Import gmap strings list fin_maps pretty.

(** ** Strings *)

Abbreviation pystr := (list N).

(** A literal of the program as a Python string. *)
Definition lit (s : string) : pystr :=
  map N_of_ascii (list_ascii_of_string s).

(** ** Enumerations *)

Inductive OperationMode := Auto | Silent | Favorite | Fan.

Inductive LedBrightness := Bright | Dim | Off.

Inductive FilterType := Regular | AntiBacterial | AntiFormaldehyde | Unknown.

(** ** Raw values and exceptions *)

Inductive value :=
| VNone
| VBool (b : bool)
| VInt (z : Z)
| VStr (s : pystr).

Inductive exn :=
| KeyError (key : string)
| ValueError (v : value)
| TypeError
| UnknownPropertyError (name : string)
| AirPurifierMiotException (msg : string).

Inductive result (A : Type) :=
| Ok (a : A)
| Raise (e : exn).
Arguments Ok {A} a.
Arguments Raise {A} e.

(** Truth value of a raw value ([if v] in Python). *)
Definition truthy (v : value) : bool :=
  match v with
  | VNone => false
  | VBool b => b
  | VInt z => negb (z =? 0)%Z
  | VStr s => negb (bool_decide (s = []))
  end.

(** [v == s] for a string literal [s]: values of another type differ. *)
Definition eq_str (v : value) (s : pystr) : bool :=
  match v with
  | VStr t => bool_decide (t = s)
  | _ => false
  end.

(** The integer a raw value is equal to, when there is one: [True == 1]
    and [False == 0] in Python, and enum members are looked up by value. *)
Definition as_int (v : value) : option Z :=
  match v with
  | VInt z => Some z
  | VBool b => Some (if b then 1 else 0)%Z
  | _ => None
  end.

(** [OperationMode(v)]: the member whose value equals [v], else [ValueError]. *)
Definition OperationMode_of (v : value) : result OperationMode :=
  match as_int v with
  | Some 0%Z => Ok Auto
  | Some 1%Z => Ok Silent
  | Some 2%Z => Ok Favorite
  | Some 3%Z => Ok Fan
  | _ => Raise (ValueError v)
  end.

Definition OperationMode_value (m : OperationMode) : Z :=
  match m with Auto => 0 | Silent => 1 | Favorite => 2 | Fan => 3 end.

(** [LedBrightness(v)]. *)
Definition LedBrightness_of (v : value) : result LedBrightness :=
  match as_int v with
  | Some 0%Z => Ok Bright
  | Some 1%Z => Ok Dim
  | Some 2%Z => Ok Off
  | _ => Raise (ValueError v)
  end.

Definition LedBrightness_value (b : LedBrightness) : Z :=
  match b with Bright => 0 | Dim => 1 | Off => 2 end.

(** ** Regular expressions, as [re.compile] reads the three patterns *)

Inductive regex :=
| Bol                       (* ^  : start of the string *)
| Eol                       (* $  : end, or before a final newline *)
| Digit                     (* \d *)
| AnyChar                   (* .  : any character but newline *)
| Lit (l : pystr)           (* a run of literal characters *)
| Seq (r1 r2 : regex)
| Alt (r1 r2 : regex)       (* r1|r2 *)
| Star (r : regex)          (* r* *)
| Plus (r : regex).         (* r+ *)

Definition newline : N := 10.

(** The code point of the digit zero of every decimal system of Unicode
    14.0 (general category Nd); the ten digits of a system are
    consecutive. *)
Definition decimal_zeros : list N :=
  [ 48; 1632; 1776; 1984; 2406; 2534; 2662; 2790; 2918; 3046; 3174; 3302;
    3430; 3558; 3664; 3792; 3872; 4160; 4240; 6112; 6160; 6470; 6608; 6784;
    6800; 6992; 7088; 7232; 7248; 42528; 43216; 43264; 43472; 43504; 43600;
    44016; 65296; 66720; 68912; 69734; 69872; 69942; 70096; 70384; 70736;
    70864; 71248; 71360; 71472; 71904; 72016; 72784; 73040; 73120; 92768;
    92864; 93008; 120782; 120792; 120802; 120812; 120822; 123200; 123632;
    125264; 130032 ]%N.

(** [\d] in a [str] pattern: any Unicode decimal digit. *)
Definition is_digit (c : N) : bool :=
  existsb (λ zero, (zero <=? c)%N && (c <? zero + 10)%N) decimal_zeros.

(** [strip l s]: the rest of [s] after the prefix [l], if [s] starts with it. *)
Fixpoint strip (l s : pystr) : option pystr :=
  match l with
  | [] => Some s
  | a :: l' =>
      match s with
      | b :: s' => if (a =? b)%N then strip l' s' else None
      | [] => None
      end
  end.

(** A continuation receives the position reached and the rest of the input. *)
Definition cont := nat -> pystr -> bool.

(** The loop of [r*]: greedy, and an iteration that consumes nothing is
    not repeated.  [n] bounds the number of iterations by the input left. *)
Fixpoint star_loop (body : nat -> pystr -> cont -> bool)
    (n : nat) (pos : nat) (s : pystr) (k : cont) : bool :=
  match n with
  | O => k pos s
  | S n' =>
      body pos s (fun pos' s' =>
        if (length s' <? length s)%nat
        then star_loop body n' pos' s' k else false)
      || k pos s
  end.

(** Backtracking matcher: [rx r pos s k] holds when [r] matches a prefix
    of [s] (which starts at position [pos] of the whole string) and [k]
    accepts what follows. *)
Fixpoint rx (r : regex) (pos : nat) (s : pystr) (k : cont) : bool :=
  match r with
  | Bol => (pos =? 0)%nat && k pos s
  | Eol =>
      match s with
      | [] => k pos s
      | [c] => (c =? newline)%N && k pos s
      | _ => false
      end
  | Digit =>
      match s with
      | c :: s' => is_digit c && k (S pos) s'
      | [] => false
      end
  | AnyChar =>
      match s with
      | c :: s' => negb (c =? newline)%N && k (S pos) s'
      | [] => false
      end
  | Lit l =>
      match strip l s with
      | Some s' => k (pos + length l)%nat s'
      | None => false
      end
  | Seq r1 r2 => rx r1 pos s (fun pos' s' => rx r2 pos' s' k)
  | Alt r1 r2 => rx r1 pos s k || rx r2 pos s k
  | Star r' => star_loop (rx r') (S (length s)) pos s k
  | Plus r' =>
      rx r' pos s (fun pos' s' =>
        star_loop (rx r') (S (length s')) pos' s' k)
  end.

(** [pattern.match(s)]: a match anchored at position 0, of any length;
    a match object is always true. *)
Definition re_match (r : regex) (s : pystr) : bool :=
  rx r 0 s (fun _ _ => true).

(** [FILTER_TYPE_RE] *)
Definition re_antibacterial : regex :=      (* ^\d+:\d+:41:30$ *)
  Seq Bol (Seq (Plus Digit) (Seq (Lit (lit ":")) (Seq (Plus Digit)
    (Seq (Lit (lit ":41:30")) Eol)))).

Definition re_antiformaldehyde : regex :=   (* ^\d+:\d+:(30|0|00):31$ *)
  Seq Bol (Seq (Plus Digit) (Seq (Lit (lit ":")) (Seq (Plus Digit)
    (Seq (Lit (lit ":"))
      (Seq (Alt (Lit (lit "30")) (Alt (Lit (lit "0")) (Lit (lit "00"))))
        (Seq (Lit (lit ":31")) Eol)))))).

Definition re_any : regex := Star AnyChar.  (* .* *)

Definition FILTER_TYPE_RE : list (regex * FilterType) :=
  [ (re_antibacterial, AntiBacterial);
    (re_antiformaldehyde, AntiFormaldehyde);
    (re_any, Regular) ].

Definition nl : pystr := [newline].

(** ** The status container and the class-level cache

    An accessor runs on the object it is called on ([self]) and on the
    class attribute [_filter_type_cache], which all instances share; it
    returns a value or raises, and leaves a state behind in both cases. *)

Record AirPurifierMiotStatus := mkStatus { data : gmap string value }.

Record state := mkState {
  self : AirPurifierMiotStatus;
  _filter_type_cache : gmap pystr FilterType
}.

Definition M (A : Type) : Type := state -> result A * state.

#[export] Instance M_ret : MRet M := λ A a h, (Ok a, h).
#[export] Instance M_bind : MBind M := λ A B f c h,
  match c h with
  | (Ok a, h') => f a h'
  | (Raise e, h') => (Raise e, h')
  end.

Definition raise {A} (e : exn) : M A := λ h, (Raise e, h).

Definition lift {A} (r : result A) : M A := λ h, (r, h).

(** [try: c  except ValueError: handler] *)
Definition except_ValueError {A} (c handler : M A) : M A := λ h,
  match c h with
  | (Raise (ValueError _), h') => handler h'
  | r => r
  end.

(** [self.data[key]] *)
Definition getitem (key : string) : M value := λ h,
  match data (self h) !! key with
  | Some v => (Ok v, h)
  | None => (Raise (KeyError key), h)
  end.

Definition is_None (v : value) : bool :=
  match v with VNone => true | _ => false end.

(** [AirPurifierMiotStatus(data)]: the constructor stores the mapping. *)
Definition AirPurifierMiotStatus_init (d : gmap string value)
  : result AirPurifierMiotStatus := Ok (mkStatus d).

Definition is_on : M value := getitem "power".

Definition power : M string :=
  v ← is_on; mret (if truthy v then "on" else "off").

Definition aqi : M value := getitem "aqi".
Definition average_aqi : M value := getitem "average_aqi".
Definition humidity : M value := getitem "humidity".

Definition temperature : M value :=
  v ← getitem "temperature";
  if negb (is_None v) then getitem "temperature" else mret VNone.

Definition fan_level : M value := getitem "fan_level".

Definition mode : M OperationMode :=
  v ← getitem "mode"; lift (OperationMode_of v).

Definition led : M value := getitem "led".

Definition led_brightness : M (option LedBrightness) :=
  v ← getitem "led_brightness";
  if negb (is_None v) then
    except_ValueError
      (v' ← getitem "led_brightness";
       b ← lift (LedBrightness_of v');
       mret (Some b))
      (mret None)
  else mret None.

Definition buzzer : M value :=
  v ← getitem "buzzer";
  if negb (is_None v) then getitem "buzzer" else mret VNone.

Definition child_lock : M value := getitem "child_lock".
Definition favorite_level : M value := getitem "favorite_level".
Definition filter_life_remaining : M value := getitem "filter_life_remaining".
Definition filter_hours_used : M value := getitem "filter_hours_used".
Definition use_time : M value := getitem "use_time".
Definition purify_volume : M value := getitem "purify_volume".
Definition motor_speed : M value := getitem "motor_speed".
Definition filter_rfid_product_id : M value := getitem "filter_rfid_product_id".
Definition filter_rfid_tag : M value := getitem "filter_rfid_tag".
Definition button_pressed : M value := getitem "button_pressed".

(** [cls._filter_type_cache.get(product_id, None)] *)
Definition cache_get (product_id : pystr) : M (option FilterType) := λ h,
  (Ok (_filter_type_cache h !! product_id), h).

(** [cls._filter_type_cache[product_id] = filter_type] *)
Definition cache_set (product_id : pystr) (filter_type : FilterType) : M unit :=
  λ h, (Ok tt, mkState (self h) (<[product_id := filter_type]> (_filter_type_cache h))).

(** The [for] loop of [_get_filter_type]: the first rule that matches
    writes the cache and ends the loop; [ft] stays [None] otherwise. *)
Fixpoint scan (rules : list (regex * FilterType)) (product_id : pystr)
  : M (option FilterType) :=
  match rules with
  | [] => mret None
  | (filter_re, filter_type) :: rules' =>
      if re_match filter_re product_id then
        _ ← cache_set product_id filter_type; mret (Some filter_type)
      else scan rules' product_id
  end.

Definition _get_filter_type (product_id : pystr) : M (option FilterType) :=
  ft ← cache_get product_id;
  match ft with
  | None => scan FILTER_TYPE_RE product_id
  | Some _ => mret ft
  end.

(** The raw product id is handed over as it is; a value that is not a
    string is not a cache key and [filter_re.match] rejects it. *)
Definition filter_type : M (option FilterType) :=
  tag ← filter_rfid_tag;
  if is_None tag then mret None else
  tag ← filter_rfid_tag;
  if eq_str tag (lit "0:0:0:0:0:0:0") then mret (Some Unknown) else
  pid ← filter_rfid_product_id;
  if is_None pid then mret (Some Regular) else
  pid ← filter_rfid_product_id;
  match pid with
  | VStr product_id => _get_filter_type product_id
  | _ => raise TypeError
  end.

(** The properties of the class, and the state each leaves behind. *)
Inductive accessor :=
| A_is_on | A_power | A_aqi | A_average_aqi | A_humidity | A_temperature
| A_fan_level | A_mode | A_led | A_led_brightness | A_buzzer | A_child_lock
| A_favorite_level | A_filter_life_remaining | A_filter_hours_used
| A_use_time | A_purify_volume | A_motor_speed | A_filter_rfid_product_id
| A_filter_rfid_tag | A_filter_type | A_button_pressed.

#[export] Instance accessor_eq_dec : EqDecision accessor.
Proof. solve_decision. Defined.

Definition after (a : accessor) (h : state) : state :=
  match a with
  | A_is_on => (is_on h).2
  | A_power => (power h).2
  | A_aqi => (aqi h).2
  | A_average_aqi => (average_aqi h).2
  | A_humidity => (humidity h).2
  | A_temperature => (temperature h).2
  | A_fan_level => (fan_level h).2
  | A_mode => (mode h).2
  | A_led => (led h).2
  | A_led_brightness => (led_brightness h).2
  | A_buzzer => (buzzer h).2
  | A_child_lock => (child_lock h).2
  | A_favorite_level => (favorite_level h).2
  | A_filter_life_remaining => (filter_life_remaining h).2
  | A_filter_hours_used => (filter_hours_used h).2
  | A_use_time => (use_time h).2
  | A_purify_volume => (purify_volume h).2
  | A_motor_speed => (motor_speed h).2
  | A_filter_rfid_product_id => (filter_rfid_product_id h).2
  | A_filter_rfid_tag => (filter_rfid_tag h).2
  | A_filter_type => (filter_type h).2
  | A_button_pressed => (button_pressed h).2
  end.

(** Instrumented copy of the classifier: it also returns the number of
    [filter_re.match] calls made, and is otherwise the same code. *)
Fixpoint scan_counted (rules : list (regex * FilterType)) (product_id : pystr)
  : M (option FilterType * nat) :=
  match rules with
  | [] => mret (None, O)
  | (filter_re, filter_type) :: rules' =>
      if re_match filter_re product_id then
        _ ← cache_set product_id filter_type; mret (Some filter_type, 1%nat)
      else
        r ← scan_counted rules' product_id; mret (r.1, S r.2)
  end.

Definition _get_filter_type_counted (product_id : pystr)
  : M (option FilterType * nat) :=
  ft ← cache_get product_id;
  match ft with
  | None => scan_counted FILTER_TYPE_RE product_id
  | Some _ => mret (ft, O)
  end.

(** The category of the first rule of the list that matches. *)
Fixpoint first_match (rules : list (regex * FilterType)) (product_id : pystr)
  : option FilterType :=
  match rules with
  | [] => None
  | (filter_re, filter_type) :: rules' =>
      if re_match filter_re product_id then Some filter_type
      else first_match rules' product_id
  end.

(** Every entry of the cache is the first matching rule's category. *)
Definition cache_ok (c : gmap pystr FilterType) : Prop :=
  ∀ k t, c !! k = Some t → first_match FILTER_TYPE_RE k = Some t.

(** ** The device facade *)

Record PropertyAddress := mkAddr { siid : Z; piid : Z }.

(** The table handed to [MiotDevice.__init__]. *)
Definition mapping : list (string * PropertyAddress) :=
  [ ("power", mkAddr 2 2);
    ("fan_level", mkAddr 2 4);
    ("mode", mkAddr 2 5);
    ("humidity", mkAddr 3 7);
    ("temperature", mkAddr 3 8);
    ("aqi", mkAddr 3 6);
    ("filter_life_remaining", mkAddr 4 3);
    ("filter_hours_used", mkAddr 4 5);
    ("buzzer", mkAddr 5 1);
    ("led_brightness", mkAddr 6 1);
    ("led", mkAddr 6 6);
    ("child_lock", mkAddr 7 1);
    ("favorite_level", mkAddr 10 10);
    ("motor_speed", mkAddr 10 8);
    ("use_time", mkAddr 12 1);
    ("purify_volume", mkAddr 13 1);
    ("average_aqi", mkAddr 13 2);
    ("filter_rfid_tag", mkAddr 14 1);
    ("filter_rfid_product_id", mkAddr 14 3);
    ("app_extra", mkAddr 15 1) ].

Fixpoint mapping_get (m : list (string * PropertyAddress)) (key : string)
  : option PropertyAddress :=
  match m with
  | [] => None
  | (k, a) :: m' => if String.eqb k key then Some a else mapping_get m' key
  end.

(** What the device is asked over the transport. *)
Inductive call :=
| GetProperties (props : list (string * PropertyAddress))
| SetProperty (addr : PropertyAddress) (v : value).

(** A facade operation runs on the log of the calls sent so far. *)
Definition D (A : Type) : Type := list call -> result A * list call.

#[export] Instance D_ret : MRet D := λ A a l, (Ok a, l).
#[export] Instance D_bind : MBind D := λ A B f c l,
  match c l with
  | (Ok a, l') => f a l'
  | (Raise e, l') => (Raise e, l')
  end.

Definition raiseD {A} (e : exn) : D A := λ l, (Raise e, l).

Definition liftD {A} (r : result A) : D A := λ l, (r, l).

(** One entry of the answer to a batch read: a dictionary that may or
    may not hold ["did"] and ["value"]. *)
Record answer := mkAnswer { did : option string; value_of : option value }.

(** [prop[key]] *)
Definition subscript {A} (key : string) (field : option A) : result A :=
  match field with
  | Some a => Ok a
  | None => Raise (KeyError key)
  end.

(** [{prop["did"]: prop["value"] for prop in props}], from the entries
    already collected in [d]: the key is evaluated before the value (as
    from Python 3.8 on), and the first entry without one of them ends
    the comprehension with its [KeyError]. *)
Fixpoint dict_from (d : gmap string value) (props : list answer)
  : result (gmap string value) :=
  match props with
  | [] => Ok d
  | prop :: props' =>
      match subscript "did" (did prop) with
      | Raise e => Raise e
      | Ok k =>
          match subscript "value" (value_of prop) with
          | Raise e => Raise e
          | Ok v => dict_from (<[k := v]> d) props'
          end
      end
  end.

Definition dict_of (props : list answer) : result (gmap string value) :=
  dict_from ∅ props.

Section Facade.

(** The transport's answers: to a batch read, a list of entries; to a
    write, a result that is passed on. *)
Variable get_reply : list (string * PropertyAddress) -> result (list answer).
Variable set_reply : PropertyAddress -> value -> result value.

(** Modelled from the spec: [MiotDevice.get_properties] (miot_device.py is
    not among the sources) reads all registered addresses in one batch. *)
Definition get_properties : D (list answer) := λ l,
  (get_reply mapping, (l ++ [GetProperties mapping])%list).

(** Modelled from the spec: [MiotDevice.set_property] (miot_device.py is
    not among the sources) resolves the name in the table, fails on a
    name that is not registered, and issues one write whose result it
    returns. *)
Definition set_property (property_key : string) (v : value) : D value := λ l,
  match mapping_get mapping property_key with
  | None => (Raise (UnknownPropertyError property_key), l)
  | Some addr => (set_reply addr v, (l ++ [SetProperty addr v])%list)
  end.

Definition status : D AirPurifierMiotStatus :=
  props ← get_properties;
  d ← liftD (dict_of props);
  liftD (AirPurifierMiotStatus_init d).

Definition on : D value := set_property "power" (VBool true).

Definition off : D value := set_property "power" (VBool false).

Definition set_fan_level (level : Z) : D value :=
  if (level <? 1)%Z || (level >? 3)%Z then
    raiseD (AirPurifierMiotException ("Invalid fan level: " +:+ pretty level))
  else set_property "fan_level" (VInt level).

Definition set_mode (mode : OperationMode) : D value :=
  set_property "mode" (VInt (OperationMode_value mode)).

Definition set_favorite_level (level : Z) : D value :=
  if (level <? 0)%Z || (level >? 14)%Z then
    raiseD (AirPurifierMiotException ("Invalid favorite level: " +:+ pretty level))
  else set_property "favorite_level" (VInt level).

Definition set_led_brightness (brightness : LedBrightness) : D value :=
  set_property "led_brightness" (VInt (LedBrightness_value brightness)).

Definition set_led (led : bool) : D value := set_property "led" (VBool led).

Definition set_buzzer (buzzer : bool) : D value :=
  set_property "buzzer" (VBool buzzer).

Definition set_child_lock (lock : bool) : D value :=
  set_property "child_lock" (VBool lock).

End Facade.

(** ** The shapes of the specification

    ["<digits>:<digits>:<code>:<subcode>"]: four fields separated by
    colons, the first two non-empty runs of digits. *)

Definition colon : N := 58.

Fixpoint fields (s : pystr) : list pystr :=
  match s with
  | [] => [[]]
  | c :: s' =>
      if (c =? colon)%N then [] :: fields s'
      else match fields s' with
           | f :: fs => (c :: f) :: fs
           | [] => [[c]]
           end
  end.

Fixpoint all_digits (s : pystr) : bool :=
  match s with
  | [] => true
  | c :: s' => is_digit c && all_digits s'
  end.

Definition digits (s : pystr) : bool :=
  negb (bool_decide (s = [])) && all_digits s.

Definition spec_shape (code subcode : pystr) (s : pystr) : bool :=
  match fields s with
  | [a; b; c; d] =>
      digits a && digits b && bool_decide (c = code)
      && bool_decide (d = subcode)
  | _ => false
  end.

(** The classification as the specification words it. *)
Definition spec_classify (s : pystr) : FilterType :=
  if spec_shape (lit "41") (lit "30") s then AntiBacterial
  else if spec_shape (lit "30") (lit "31") s || spec_shape (lit "0") (lit "31") s
          || spec_shape (lit "00") (lit "31") s then AntiFormaldehyde
  else Regular.

(** [s] without one final newline, if it has one. *)
Fixpoint chomp (s : pystr) : pystr :=
  match s with
  | [] => []
  | [c] => if (c =? newline)%N then [] else s
  | c :: s' => c :: chomp s'
  end.

(** ** What a pattern matches

    [matches r pos s pos' s']: [r] matches at position [pos], where [s]
    is left of the input, and ends at position [pos'] with [s'] left. *)

Inductive matches : regex -> nat -> pystr -> nat -> pystr -> Prop :=
| m_bol s : matches Bol 0 s 0 s
| m_eol pos s : s = [] ∨ s = nl → matches Eol pos s pos s
| m_digit pos c s : is_digit c = true → matches Digit pos (c :: s) (S pos) s
| m_any pos c s : c ≠ newline → matches AnyChar pos (c :: s) (S pos) s
| m_lit l pos s : matches (Lit l) pos (l ++ s) (pos + length l) s
| m_seq r1 r2 pos s pos1 s1 pos2 s2 :
    matches r1 pos s pos1 s1 → matches r2 pos1 s1 pos2 s2 →
    matches (Seq r1 r2) pos s pos2 s2
| m_alt_l r1 r2 pos s pos' s' :
    matches r1 pos s pos' s' → matches (Alt r1 r2) pos s pos' s'
| m_alt_r r1 r2 pos s pos' s' :
    matches r2 pos s pos' s' → matches (Alt r1 r2) pos s pos' s'
| m_star_nil r pos s : matches (Star r) pos s pos s
| m_star_cons r pos s pos1 s1 pos2 s2 :
    matches r pos s pos1 s1 → matches (Star r) pos1 s1 pos2 s2 →
    matches (Star r) pos s pos2 s2
| m_plus r pos s pos1 s1 pos2 s2 :
    matches r pos s pos1 s1 → matches (Star r) pos1 s1 pos2 s2 →
    matches (Plus r) pos s pos2 s2.

(** ** Auxiliary definitions of the statements *)

(** No colon occurs in the string. *)
Fixpoint no_colon (s : pystr) : bool :=
  match s with
  | [] => true
  | c :: s' => negb (c =? colon)%N && no_colon s'
  end.

(** The position reached after ["<d1>:<d2>"] from position 0. *)
Definition head_end (d1 d2 : pystr) : nat :=
  (0 + length d1 + length (lit ":") + length d2)%nat.

(** A snapshot with no data, and an empty cache. *)
Definition empty_state : state := mkState (mkStatus ∅) ∅.

(** An optional string as a raw value. *)
Definition raw (o : option pystr) : value :=
  match o with
  | None => VNone
  | Some s => VStr s
  end.

(** A snapshot holding only the two RFID fields, on an empty cache. *)
Definition tagged (tag product_id : option pystr) : state :=
  mkState
    (mkStatus (<["filter_rfid_tag" := raw tag]>
                (<["filter_rfid_product_id" := raw product_id]> ∅)))
    ∅.

(** Snapshots holding one field, on an empty cache. *)
Definition with_mode (v : value) : state :=
  mkState (mkStatus (<["mode" := v]> ∅)) ∅.

Definition with_led_brightness (v : value) : state :=
  mkState (mkStatus (<["led_brightness" := v]> ∅)) ∅.

Definition with_power (v : value) : state :=
  mkState (mkStatus (<["power" := v]> ∅)) ∅.

(** The entries of an answer that gives [f name] for every name of the
    table. *)
Definition answers (f : string -> value) (m : list (string * PropertyAddress))
  : list answer :=
  map (λ e, mkAnswer (Some e.1) (Some (f e.1))) m.

(** The mapping that holds [f name] for every name of the table. *)
Definition mapping_of (f : string -> value) : gmap string value :=
  foldl (λ d e, <[e.1 := f e.1]> d) ∅ mapping.

(** A device that answers every registered property with [None]. *)
Definition all_None (m : list (string * PropertyAddress))
  : result (list answer) :=
  Ok (answers (λ _, VNone) m).

(** The cache after a series of property reads, each on its own
    snapshot, all sharing the class attribute. *)
Fixpoint reads (l : list (AirPurifierMiotStatus * accessor))
    (c : gmap pystr FilterType) : gmap pystr FilterType :=
  match l with
  | [] => c
  | (st, a) :: l' => reads l' (_filter_type_cache (after a (mkState st c)))
  end.

(** ** Printing a snapshot *)

(** [str(v)], as ["%s" % v] prints a raw value. *)
Definition str_value (v : value) : pystr :=
  match v with
  | VNone => lit "None"
  | VBool true => lit "True"
  | VBool false => lit "False"
  | VInt z => lit (pretty z)
  | VStr s => s
  end.

Definition str_OperationMode (m : OperationMode) : string :=
  match m with
  | Auto => "OperationMode.Auto"
  | Silent => "OperationMode.Silent"
  | Favorite => "OperationMode.Favorite"
  | Fan => "OperationMode.Fan"
  end.

Definition str_LedBrightness (b : LedBrightness) : string :=
  match b with
  | Bright => "LedBrightness.Bright"
  | Dim => "LedBrightness.Dim"
  | Off => "LedBrightness.Off"
  end.

Definition str_FilterType (t : FilterType) : string :=
  match t with
  | Regular => "FilterType.Regular"
  | AntiBacterial => "FilterType.AntiBacterial"
  | AntiFormaldehyde => "FilterType.AntiFormaldehyde"
  | Unknown => "FilterType.Unknown"
  end.

Definition str_option {A} (str : A -> string) (o : option A) : string :=
  match o with
  | None => "None"
  | Some a => str a
  end.

(** [__repr__]: the tuple of the twenty properties is evaluated from left
    to right, then formatted. *)
Definition __repr__ : M pystr :=
  v_power ← power;
  v_aqi ← aqi;
  v_average_aqi ← average_aqi;
  v_temperature ← temperature;
  v_humidity ← humidity;
  v_fan_level ← fan_level;
  v_mode ← mode;
  v_led ← led;
  v_led_brightness ← led_brightness;
  v_buzzer ← buzzer;
  v_child_lock ← child_lock;
  v_favorite_level ← favorite_level;
  v_filter_life_remaining ← filter_life_remaining;
  v_filter_hours_used ← filter_hours_used;
  v_use_time ← use_time;
  v_purify_volume ← purify_volume;
  v_motor_speed ← motor_speed;
  v_filter_rfid_product_id ← filter_rfid_product_id;
  v_filter_rfid_tag ← filter_rfid_tag;
  v_filter_type ← filter_type;
  mret (lit "<AirPurifierMiotStatus power=" ++ lit v_power
        ++ lit ", aqi=" ++ str_value v_aqi
        ++ lit ", average_aqi=" ++ str_value v_average_aqi
        ++ lit ", temperature=" ++ str_value v_temperature
        ++ lit ", humidity=" ++ str_value v_humidity ++ lit "%"
        ++ lit ", fan_level=" ++ str_value v_fan_level
        ++ lit ", mode=" ++ lit (str_OperationMode v_mode)
        ++ lit ", led=" ++ str_value v_led
        ++ lit ", led_brightness=" ++ lit (str_option str_LedBrightness v_led_brightness)
        ++ lit ", buzzer=" ++ str_value v_buzzer
        ++ lit ", child_lock=" ++ str_value v_child_lock
        ++ lit ", favorite_level=" ++ str_value v_favorite_level
        ++ lit ", filter_life_remaining=" ++ str_value v_filter_life_remaining
        ++ lit ", filter_hours_used=" ++ str_value v_filter_hours_used
        ++ lit ", use_time=" ++ str_value v_use_time
        ++ lit ", purify_volume=" ++ str_value v_purify_volume
        ++ lit ", motor_speed=" ++ str_value v_motor_speed
        ++ lit ", filter_rfid_product_id=" ++ str_value v_filter_rfid_product_id
        ++ lit ", filter_rfid_tag=" ++ str_value v_filter_rfid_tag
        ++ lit ", filter_type=" ++ lit (str_option str_FilterType v_filter_type)
        ++ lit ">").

(** [__json__] *)
Definition __json__ : M (gmap string value) := λ h, (Ok (data (self h)), h).

(** The keys [__repr__] reads with a plain [self.data[key]]. *)
Definition repr_keys : list string :=
  [ "power"; "aqi"; "average_aqi"; "temperature"; "humidity"; "fan_level";
    "led"; "led_brightness"; "buzzer"; "child_lock"; "favorite_level";
    "filter_life_remaining"; "filter_hours_used"; "use_time";
    "purify_volume"; "motor_speed"; "filter_rfid_product_id";
    "filter_rfid_tag" ].

(** ** The commands of the facade *)

Inductive command :=
| Status
| On
| Turn_off
| SetFanLevel (level : Z)
| SetMode (mode : OperationMode)
| SetFavoriteLevel (level : Z)
| SetLedBrightness (brightness : LedBrightness)
| SetLed (led : bool)
| SetBuzzer (buzzer : bool)
| SetChildLock (lock : bool).

(** The log of calls a command leaves behind. *)
Definition log_after
    (get_reply : list (string * PropertyAddress) -> result (list answer))
    (set_reply : PropertyAddress -> value -> result value)
    (cmd : command) (l : list call) : list call :=
  match cmd with
  | Status => (status get_reply l).2
  | On => (on set_reply l).2
  | Turn_off => (off set_reply l).2
  | SetFanLevel level => (set_fan_level set_reply level l).2
  | SetMode mode => (set_mode set_reply mode l).2
  | SetFavoriteLevel level => (set_favorite_level set_reply level l).2
  | SetLedBrightness brightness => (set_led_brightness set_reply brightness l).2
  | SetLed led => (set_led set_reply led l).2
  | SetBuzzer buzzer => (set_buzzer set_reply buzzer l).2
  | SetChildLock lock => (set_child_lock set_reply lock l).2
  end.

(** A level the setter rejects. *)
Definition rejected (cmd : command) : bool :=
  match cmd with
  | SetFanLevel level => (level <? 1)%Z || (level >? 3)%Z
  | SetFavoriteLevel level => (level <? 0)%Z || (level >? 14)%Z
  | _ => false
  end.

#[export] Instance PropertyAddress_eq_dec : EqDecision PropertyAddress.
Proof. solve_decision. Defined.

(** The conditions under which every property that [__repr__] prints
    can be read. *)
Definition printable (h : state) : Prop :=
  Forall (λ key, is_Some (data (self h) !! key)) repr_keys ∧
  (∃ v m, data (self h) !! "mode" = Some v ∧ OperationMode_of v = Ok m) ∧
  (∃ ft h1, filter_type h = (Ok ft, h1)).

(** An entry that holds both ["did"] and ["value"]. *)
Definition complete (prop : answer) : Prop :=
  is_Some (did prop) ∧ is_Some (value_of prop).

(** A device whose mode is Favorite and that answers [None] for every
    other registered property. *)
Definition favorite_mode (name : string) : value :=
  if String.eqb name "mode" then VInt 2 else VNone.

Definition favorite_device (m : list (string * PropertyAddress))
  : result (list answer) :=
  Ok (answers favorite_mode m).

Definition favorite_state : state :=
  mkState (mkStatus (mapping_of favorite_mode)) ∅.

(** The keys [__repr__] reads before it decodes the mode. *)
Definition keys_before_mode : list string :=
  [ "power"; "aqi"; "average_aqi"; "temperature"; "humidity"; "fan_level" ].

(** A snapshot in which every registered property is 9. *)
Definition all_nines_state : state :=
  mkState (mkStatus (mapping_of (λ _, VInt 9))) ∅.

(** * Properties *)

(** ** The patterns on sample product ids *)

Example re_ab_1 : re_match re_antibacterial (lit "12:3:41:30") = true.
Proof. reflexivity. Qed.
Example re_ab_2 : re_match re_antibacterial (lit "12:3:41:30" ++ nl) = true.
Proof. reflexivity. Qed.
Example re_ab_3 : re_match re_antibacterial (lit "12:3:41:301") = false.
Proof. reflexivity. Qed.
Example re_ab_4 : re_match re_antibacterial (lit ":3:41:30") = false.
Proof. reflexivity. Qed.
Example re_af_1 : re_match re_antiformaldehyde (lit "0:0:00:31") = true.
Proof. reflexivity. Qed.
Example re_af_2 : re_match re_antiformaldehyde (lit "0:0:000:31") = false.
Proof. reflexivity. Qed.
Example re_any_1 : re_match re_any (nl ++ lit "x") = true.
Proof. reflexivity. Qed.

(** ** Strings *)

Lemma append_cons c (s t : pystr) : (c :: s) ++ t = c :: (s ++ t).
Proof. reflexivity. Qed.

Lemma append_nil_l (t : pystr) : [] ++ t = t.
Proof. reflexivity. Qed.

Lemma append_nil_r (s : pystr) : s ++ [] = s.
Proof. induction s as [|c s IH]; [done|]. rewrite append_cons. by f_equal. Qed.

Lemma append_assoc (s t u : pystr) : (s ++ t) ++ u = s ++ t ++ u.
Proof. induction s as [|c s IH]; [done|]. rewrite !append_cons. by f_equal. Qed.

Lemma length_append (s t : pystr) :
  length (s ++ t) = (length s + length t)%nat.
Proof. induction s as [|c s IH]; [done|]. rewrite append_cons. simpl. by f_equal. Qed.

Lemma append_same_length (pre s : pystr) :
  length (pre ++ s) = length s → pre = [].
Proof. rewrite length_append. destruct pre; simpl; [done|lia]. Qed.

Lemma strip_Some l s s' : strip l s = Some s' ↔ s = l ++ s'.
Proof.
  revert s. induction l as [|a l IH]; intros s; simpl.
  - split; congruence.
  - destruct s as [|b s]; [split; discriminate|].
    destruct (N.eqb_spec a b) as [->|Hne].
    + rewrite IH. split; congruence.
    + split; [discriminate|congruence].
Qed.

(** ** The matcher decides [matches] *)

Lemma matches_consumes r pos s pos' s' :
  matches r pos s pos' s' →
  ∃ pre, s = pre ++ s' ∧ pos' = (pos + length pre)%nat.
Proof.
  assert (Hcat : ∀ a b (u : pystr) p, ∃ pre,
            a ++ b ++ u = pre ++ u ∧
            (p + length a + length b
             = p + length pre)%nat).
  { intros a b u p. exists (a ++ b).
    rewrite append_assoc, length_append. split; [done|lia]. }
  induction 1 as
    [s|pos s _|pos c s _|pos c s _|l pos s
    |r1 r2 pos s pos1 s1 pos2 s2 _ IH1 _ IH2
    |r1 r2 pos s pos' s' _ IH|r1 r2 pos s pos' s' _ IH
    |r pos s
    |r pos s pos1 s1 pos2 s2 _ IH1 _ IH2
    |r pos s pos1 s1 pos2 s2 _ IH1 _ IH2];
    try (destruct IH1 as (a & -> & ->); destruct IH2 as (b & -> & ->);
         by apply Hcat);
    try done.
  - exists []. done.
  - exists []. split; [done|simpl; lia].
  - exists (c :: []). split; [done|simpl; lia].
  - exists (c :: []). split; [done|simpl; lia].
  - exists l. done.
  - exists []. split; [done|simpl; lia].
Qed.

Lemma matches_length r pos s pos' s' :
  matches r pos s pos' s' → (length s' ≤ length s)%nat.
Proof.
  intros (pre & -> & _)%matches_consumes. rewrite length_append. lia.
Qed.

Lemma matches_no_progress r pos s pos' s' :
  matches r pos s pos' s' → length s' = length s →
  pos' = pos ∧ s' = s.
Proof.
  intros (pre & -> & ->)%matches_consumes Hlen.
  symmetry in Hlen. apply append_same_length in Hlen as ->.
  simpl. split; [lia|done].
Qed.

Section StarLoop.

Variable r : regex.
Variable body : nat -> pystr -> cont -> bool.
Hypothesis body_spec : ∀ pos s k,
  body pos s k = true ↔ ∃ pos' s', matches r pos s pos' s' ∧ k pos' s' = true.

Lemma star_loop_sound n : ∀ pos s k,
  star_loop body n pos s k = true →
  ∃ pos' s', matches (Star r) pos s pos' s' ∧ k pos' s' = true.
Proof.
  induction n as [|n IH]; intros pos s k; simpl.
  - intros Hk. exists pos, s. split; [constructor|done].
  - intros [Hb|Hk]%orb_true_iff.
    + apply body_spec in Hb as (pos1 & s1 & Hm & Hrest).
      destruct (length s1 <? length s)%nat; [|done].
      apply IH in Hrest as (pos2 & s2 & Hstar & Hk).
      exists pos2, s2. split; [|done]. by eapply m_star_cons.
    + exists pos, s. split; [constructor|done].
Qed.

Lemma star_loop_complete pos s pos' s' k :
  matches (Star r) pos s pos' s' → k pos' s' = true →
  ∀ n, (length s < n)%nat → star_loop body n pos s k = true.
Proof.
  intros Hm Hk. remember (Star r) as sr eqn:Hsr.
  induction Hm as
    [| | | | | | |
    |r0 pos s
    |r0 pos s pos1 s1 pos2 s2 Hm1 _ Hm2 IH2|]; try discriminate.
  - intros [|n] Hn; simpl; [done|]. rewrite Hk. apply orb_true_r.
  - injection Hsr as ->. intros [|n] Hn; [lia|]. simpl.
    destruct (decide (length s1 = length s)) as [Heq|Hne].
    + destruct (matches_no_progress _ _ _ _ _ Hm1 Heq) as [-> ->].
      specialize (IH2 eq_refl Hk (S n) Hn). simpl in IH2. done.
    + apply orb_true_iff. left. apply body_spec.
      exists pos1, s1. split; [done|].
      pose proof (matches_length _ _ _ _ _ Hm1) as Hle.
      destruct (Nat.ltb_spec (length s1) (length s)); [|lia].
      apply IH2; [done|done|lia].
Qed.

Lemma star_loop_spec pos s k :
  star_loop body (S (length s)) pos s k = true ↔
  ∃ pos' s', matches (Star r) pos s pos' s' ∧ k pos' s' = true.
Proof.
  split.
  - apply star_loop_sound.
  - intros (pos' & s' & Hm & Hk). eapply star_loop_complete; [done|done|lia].
Qed.

End StarLoop.

Lemma rx_spec r : ∀ pos s k,
  rx r pos s k = true ↔ ∃ pos' s', matches r pos s pos' s' ∧ k pos' s' = true.
Proof.
  induction r as [| | | |l|r1 IH1 r2 IH2|r1 IH1 r2 IH2|r IH|r IH];
    intros pos s k; simpl.
  - rewrite andb_true_iff, Nat.eqb_eq. split.
    + intros [-> Hk]. exists 0%nat, s. split; [constructor|done].
    + intros (pos' & s' & Hm & Hk). by inversion Hm; subst.
  - split.
    + destruct s as [|c [|c' s]]; [| |done].
      * intros Hk. exists pos, []. split; [constructor; by left|done].
      * intros [Hc Hk]%andb_true_iff. apply N.eqb_eq in Hc as ->.
        exists pos, nl. split; [constructor; by right|done].
    + intros (pos' & s' & Hm & Hk). inversion Hm as [|? ? [->| ->]| | | | | | | | |]; subst.
      * done.
      * unfold nl in *. rewrite Hk, N.eqb_refl. done.
  - split.
    + destruct s as [|c s]; [done|]. intros [Hc Hk]%andb_true_iff.
      exists (S pos), s. split; [by constructor|done].
    + intros (pos' & s' & Hm & Hk). inversion Hm; subst. by rewrite Hk, andb_true_r.
  - split.
    + destruct s as [|c s]; [done|]. intros [Hc Hk]%andb_true_iff.
      exists (S pos), s. split; [|done]. constructor.
      intros ->. by rewrite N.eqb_refl in Hc.
    + intros (pos' & s' & Hm & Hk). inversion Hm as [| | |? ? ? Hc| | | | | | |]; subst.
      rewrite Hk, andb_true_r. apply negb_true_iff, N.eqb_neq. done.
  - split.
    + destruct (strip l s) as [s'|] eqn:Hs; [|done]. intros Hk.
      apply strip_Some in Hs as ->. eexists _, s'. split; [constructor|done].
    + intros (pos' & s' & Hm & Hk). inversion Hm; subst.
      assert (strip l (l ++ s') = Some s') as -> by by apply strip_Some.
      done.
  - rewrite IH1. split.
    + intros (pos1 & s1 & Hm1 & (pos2 & s2 & Hm2 & Hk)%IH2).
      exists pos2, s2. split; [by econstructor|done].
    + intros (pos' & s' & Hm & Hk). inversion Hm; subst.
      eexists _, _. split; [done|]. apply IH2. eauto.
  - rewrite orb_true_iff, IH1, IH2. split.
    + intros [(pos' & s' & Hm & Hk)|(pos' & s' & Hm & Hk)]; exists pos', s'.
      * split; [by apply m_alt_l|done].
      * split; [by apply m_alt_r|done].
    + intros (pos' & s' & Hm & Hk). inversion Hm; subst; [left|right]; eauto.
  - by apply star_loop_spec.
  - rewrite IH. split.
    + intros (pos1 & s1 & Hm1 & Hloop).
      apply (star_loop_spec r (rx r) IH) in Hloop as (pos2 & s2 & Hm2 & Hk).
      exists pos2, s2. split; [by econstructor|done].
    + intros (pos' & s' & Hm & Hk). inversion Hm; subst.
      eexists _, _. split; [done|]. apply (star_loop_spec r (rx r) IH). eauto.
Qed.

Lemma re_match_spec r s :
  re_match r s = true ↔ ∃ pos' s', matches r 0 s pos' s'.
Proof.
  unfold re_match. rewrite rx_spec. split.
  - intros (pos' & s' & Hm & _). eauto.
  - intros (pos' & s' & Hm). eauto.
Qed.

(** ** Runs of digits *)

Lemma matches_star_digit pos s pos' s' :
  matches (Star Digit) pos s pos' s' ↔
  ∃ d, all_digits d = true ∧ s = d ++ s' ∧ pos' = (pos + length d)%nat.
Proof.
  split.
  - intros Hm. remember (Star Digit) as sr eqn:Hsr.
    induction Hm as
      [| | | | | | |
      |r0 pos s
      |r0 pos s pos1 s1 pos2 s2 Hm1 _ Hm2 IH2|]; try discriminate.
    + exists []. split; [done|]. split; [done|simpl; lia].
    + injection Hsr as ->. destruct (IH2 eq_refl) as (d & Hd & -> & ->).
      inversion Hm1 as [| |? c ? Hc| | | | | | | |]; subst.
      exists (c :: d). simpl. rewrite Hc, Hd. split; [done|].
      split; [done|lia].
  - intros (d & Hd & -> & ->). revert pos Hd.
    induction d as [|c d IH]; intros pos Hd.
    + simpl. replace (pos + 0)%nat with pos by lia. constructor.
    + simpl in Hd. apply andb_true_iff in Hd as [Hc Hd].
      rewrite append_cons. eapply m_star_cons; [by constructor|].
      simpl. replace (pos + S (length d))%nat
        with (S pos + length d)%nat by lia.
      by apply IH.
Qed.

Lemma matches_plus_digit pos s pos' s' :
  matches (Plus Digit) pos s pos' s' ↔
  ∃ d, digits d = true ∧ s = d ++ s' ∧ pos' = (pos + length d)%nat.
Proof.
  split.
  - intros Hm. inversion Hm as [| | | | | | | | |
      |? ? ? pos1 s1 ? ? Hm1 Hm2]; subst.
    apply matches_star_digit in Hm2 as (d & Hd & -> & ->).
    inversion Hm1 as [| |? c ? Hc| | | | | | | |]; subst.
    exists (c :: d). unfold digits. simpl. rewrite Hc, Hd.
    split; [done|]. split; [done|lia].
  - intros (d & Hd & -> & ->). unfold digits in Hd.
    apply andb_true_iff in Hd as [Hne Hd]. destruct d as [|c d]; [done|].
    simpl in Hd. apply andb_true_iff in Hd as [Hc Hd].
    rewrite append_cons. eapply m_plus; [by constructor|].
    apply matches_star_digit. exists d. split; [done|]. split; [done|simpl; lia].
Qed.

(** The common head [^\d+:\d+] of the first two patterns. *)
Lemma matches_head rest s pos' s' :
  matches (Seq Bol (Seq (Plus Digit) (Seq (Lit (lit ":")) (Seq (Plus Digit) rest))))
    0 s pos' s' ↔
  ∃ d1 d2 s1, digits d1 = true ∧ digits d2 = true ∧
    s = d1 ++ lit ":" ++ d2 ++ s1 ∧ matches rest (head_end d1 d2) s1 pos' s'.
Proof.
  split.
  - intros Hm.
    inversion Hm as [| | | | |? ? ? ? ? ? ? ? Ha Hb| | | | |]; subst; clear Hm.
    inversion Ha; subst; clear Ha.
    inversion Hb as [| | | | |? ? ? ? ? ? ? ? Hc Hd| | | | |]; subst; clear Hb.
    apply matches_plus_digit in Hc as (d1 & Hd1 & -> & ->).
    inversion Hd as [| | | | |? ? ? ? ? ? ? ? He Hf| | | | |]; subst; clear Hd.
    inversion He; subst; clear He.
    inversion Hf as [| | | | |? ? ? ? ? ? ? ? Hg Hh| | | | |]; subst; clear Hf.
    apply matches_plus_digit in Hg as (d2 & Hd2 & -> & ->).
    exists d1, d2. eauto 10.
  - intros (d1 & d2 & s1 & Hd1 & Hd2 & -> & Hrest).
    eapply m_seq; [constructor|].
    eapply m_seq; [apply matches_plus_digit; eauto|].
    eapply m_seq; [apply m_lit|].
    eapply m_seq; [apply matches_plus_digit; eauto|].
    exact Hrest.
Qed.

Lemma matches_lit_eol l pos s pos' s' :
  matches (Seq (Lit l) Eol) pos s pos' s' ↔
  s = l ++ s' ∧ (s' = [] ∨ s' = nl) ∧ pos' = (pos + length l)%nat.
Proof.
  split.
  - intros Hm.
    inversion Hm as [| | | | |? ? ? ? ? ? ? ? Ha Hb| | | | |]; subst; clear Hm.
    inversion Ha; subst; clear Ha. inversion Hb; subst. done.
  - intros (-> & Hs' & ->). eapply m_seq; [apply m_lit|by constructor].
Qed.

(** ["^\d+:\d+:41:30$"] *)
Lemma re_antibacterial_spec s :
  re_match re_antibacterial s = true ↔
  ∃ d1 d2 tail, digits d1 = true ∧ digits d2 = true ∧
    (tail = [] ∨ tail = nl) ∧ s = d1 ++ lit ":" ++ d2 ++ lit ":41:30" ++ tail.
Proof.
  rewrite re_match_spec. unfold re_antibacterial. split.
  - intros (pos' & s' & (d1 & d2 & s1 & Hd1 & Hd2 & -> & Hrest)%matches_head).
    apply matches_lit_eol in Hrest as (-> & Hs' & _). eauto 10.
  - intros (d1 & d2 & tail & Hd1 & Hd2 & Htail & ->).
    eexists _, tail. apply matches_head. exists d1, d2. eexists.
    split; [done|]. split; [done|]. split; [done|].
    by apply matches_lit_eol.
Qed.

(** ["^\d+:\d+:(30|0|00):31$"] *)
Lemma re_antiformaldehyde_spec s :
  re_match re_antiformaldehyde s = true ↔
  ∃ d1 d2 code tail, digits d1 = true ∧ digits d2 = true ∧
    (code = lit "30" ∨ code = lit "0" ∨ code = lit "00") ∧
    (tail = [] ∨ tail = nl) ∧
    s = d1 ++ lit ":" ++ d2 ++ lit ":" ++ code ++ lit ":31" ++ tail.
Proof.
  rewrite re_match_spec. unfold re_antiformaldehyde. split.
  - intros (pos' & s' & (d1 & d2 & s1 & Hd1 & Hd2 & -> & Hrest)%matches_head).
    inversion Hrest as [| | | | |? ? ? ? ? ? ? ? Ha Hb| | | | |]; subst; clear Hrest.
    inversion Ha; subst; clear Ha.
    inversion Hb as [| | | | |? ? ? ? ? ? ? ? Hc Hd| | | | |]; subst; clear Hb.
    apply matches_lit_eol in Hd as (-> & Hs' & _).
    exists d1, d2.
    inversion Hc as [| | | | | |? ? ? ? ? ? H30|? ? ? ? ? ? Hor| | |]; subst; clear Hc.
    + inversion H30; subst. exists (lit "30"), s'. eauto 10.
    + inversion Hor as [| | | | | |? ? ? ? ? ? H0|? ? ? ? ? ? H00| | |]; subst; clear Hor.
      * inversion H0; subst. exists (lit "0"), s'. eauto 10.
      * inversion H00; subst. exists (lit "00"), s'. eauto 10.
  - intros (d1 & d2 & code & tail & Hd1 & Hd2 & Hcode & Htail & ->).
    destruct Hcode as [->|[->| ->]];
      (eexists _, tail; apply matches_head; exists d1, d2; eexists;
       split; [done|]; split; [done|]; split; [done|];
       eapply m_seq; [apply m_lit|];
       eapply m_seq; [|by apply matches_lit_eol]).
    + apply m_alt_l, m_lit.
    + apply m_alt_r, m_alt_l, m_lit.
    + apply m_alt_r, m_alt_r, m_lit.
Qed.

(** [".*"] matches at the start of every string. *)
Lemma re_any_spec s : re_match re_any s = true.
Proof. apply re_match_spec. exists 0%nat, s. constructor. Qed.

(** ** Fields and shapes *)

Lemma fields_not_nil s : fields s ≠ [].
Proof.
  destruct s as [|c s]; simpl; [done|].
  destruct (N.eqb c colon); [done|]. by destruct (fields s).
Qed.

Lemma fields_no_colon a : no_colon a = true → fields a = [a].
Proof.
  induction a as [|c a IH]; simpl; [done|].
  intros [Hc Ha]%andb_true_iff. apply negb_true_iff in Hc. rewrite Hc.
  by rewrite (IH Ha).
Qed.

Lemma fields_app a r :
  no_colon a = true → fields (a ++ colon :: r) = a :: fields r.
Proof.
  induction a as [|c a IH]; simpl.
  - intros _. done.
  - intros [Hc Ha]%andb_true_iff. apply negb_true_iff in Hc.
    rewrite Hc. by rewrite (IH Ha).
Qed.

Lemma fields_cons_inv s a fs :
  fields s = a :: fs →
  match fs with
  | [] => s = a
  | _ :: _ => ∃ r, s = a ++ colon :: r ∧ fields r = fs
  end.
Proof.
  revert a fs. induction s as [|c s IH]; intros a fs; simpl.
  - intros [= <- <-]. done.
  - destruct (N.eqb_spec c colon) as [->|Hne].
    + intros [= <- <-]. pose proof (fields_not_nil s) as Hnn.
      destruct (fields s) as [|f fs'] eqn:Hf; [done|].
      exists s. done.
    + destruct (fields s) as [|f fs'] eqn:Hf; [by destruct (fields_not_nil s)|].
      intros [= <- <-]. specialize (IH f fs' eq_refl).
      destruct fs' as [|g fs'].
      * by rewrite IH.
      * destruct IH as (r & -> & Hr). exists r. by rewrite append_cons.
Qed.

Lemma is_digit_not_colon c : is_digit c = true → N.eqb c colon = false.
Proof.
  intros Hc. apply N.eqb_neq. intros ->. by vm_compute in Hc.
Qed.

Lemma all_digits_no_colon d : all_digits d = true → no_colon d = true.
Proof.
  induction d as [|c d IH]; simpl; [done|].
  intros [Hc Hd]%andb_true_iff. by rewrite (is_digit_not_colon c Hc), IH.
Qed.

Lemma digits_no_colon d : digits d = true → no_colon d = true.
Proof. intros [_ Hd]%andb_true_iff. by apply all_digits_no_colon. Qed.

Lemma spec_shape_spec code subcode s :
  no_colon code = true → no_colon subcode = true →
  spec_shape code subcode s = true ↔
  ∃ d1 d2, digits d1 = true ∧ digits d2 = true ∧
    s = d1 ++ lit ":" ++ d2 ++ lit ":" ++ code ++ lit ":" ++ subcode.
Proof.
  intros Hcode Hsub. unfold spec_shape. split.
  - destruct (fields s) as [|a [|b [|c [|d [|e fs]]]]] eqn:Hf; try done.
    intros [[[Ha Hb]%andb_true_iff Hc%bool_decide_eq_true]%andb_true_iff
            Hd%bool_decide_eq_true]%andb_true_iff.
    subst c d. exists a, b. split; [done|]. split; [done|].
    apply fields_cons_inv in Hf as (r1 & -> & Hf).
    apply fields_cons_inv in Hf as (r2 & -> & Hf).
    apply fields_cons_inv in Hf as (r3 & -> & Hf).
    apply fields_cons_inv in Hf as ->. done.
  - intros (d1 & d2 & Hd1 & Hd2 & ->).
    change (lit ":" ++ d2 ++ lit ":" ++ code ++ lit ":" ++ subcode)
      with (colon :: (d2 ++ colon :: (code ++ colon :: subcode))).
    rewrite (fields_app d1), (fields_app d2), (fields_app code),
      (fields_no_colon subcode) by auto using digits_no_colon.
    by rewrite Hd1, Hd2, !bool_decide_eq_true_2.
Qed.

(** ** Final newlines *)

Lemma chomp_cases s : s = chomp s ∨ s = chomp s ++ nl.
Proof.
  induction s as [|c s IH]; [by left|].
  destruct s as [|c' s].
  - simpl. destruct (N.eqb_spec c newline) as [->|Hne]; [by right|by left].
  - change (chomp (c :: c' :: s))
      with (c :: chomp (c' :: s)).
    destruct IH as [IH|IH]; [left|right].
    + by rewrite <- IH.
    + rewrite append_cons. by rewrite <- IH.
Qed.

Lemma chomp_app_nl s : chomp (s ++ nl) = s.
Proof.
  induction s as [|c s IH]; [done|].
  rewrite append_cons.
  destruct (s ++ nl) as [|c' t] eqn:Hs.
  - destruct s; discriminate.
  - change (chomp (c :: c' :: t))
      with (c :: chomp (c' :: t)). by rewrite IH.
Qed.

Lemma chomp_app_keep a b :
  b ≠ [] → chomp b = b → chomp (a ++ b) = a ++ b.
Proof.
  intros Hb Hcb. induction a as [|c a IH]; [done|].
  rewrite append_cons.
  destruct (a ++ b) as [|c' t] eqn:Hs.
  - destruct a; [by rewrite append_nil_l in Hs|discriminate].
  - change (chomp (c :: c' :: t))
      with (c :: chomp (c' :: t)). by rewrite IH.
Qed.

(** A string of the shape has no final newline to lose. *)
Lemma chomp_shape d1 d2 code subcode :
  subcode ≠ [] → chomp subcode = subcode →
  chomp (d1 ++ lit ":" ++ d2 ++ lit ":" ++ code ++ lit ":" ++ subcode)
  = d1 ++ lit ":" ++ d2 ++ lit ":" ++ code ++ lit ":" ++ subcode.
Proof.
  intros Hne Hsub.
  assert (Hcons : ∀ (c : N) (t : pystr), c :: t ≠ []) by done.
  apply chomp_app_keep; [apply Hcons|].
  change (lit ":" ++ d2 ++ lit ":" ++ code ++ lit ":" ++ subcode)
    with (lit ":" ++ (d2 ++ lit ":" ++ code ++ lit ":" ++ subcode)).
  apply chomp_app_keep; [|apply chomp_app_keep; [apply Hcons|]].
  - destruct d2; done.
  - change (lit ":" ++ code ++ lit ":" ++ subcode)
      with (lit ":" ++ (code ++ lit ":" ++ subcode)).
    apply chomp_app_keep; [|apply chomp_app_keep; [apply Hcons|]].
    + destruct code; done.
    + by apply (chomp_app_keep (lit ":")).
Qed.

Lemma spec_shape_chomp code subcode s :
  no_colon code = true → no_colon subcode = true →
  subcode ≠ [] → chomp subcode = subcode →
  spec_shape code subcode (chomp s) = true ↔
  ∃ d1 d2 tail, digits d1 = true ∧ digits d2 = true ∧
    (tail = [] ∨ tail = nl) ∧
    s = d1 ++ lit ":" ++ d2 ++ lit ":" ++ code ++ lit ":" ++ subcode ++ tail.
Proof.
  intros Hcode Hsub Hne Hch. rewrite spec_shape_spec by done.
  assert (Hassoc : ∀ d1 d2 tail,
    d1 ++ lit ":" ++ d2 ++ lit ":" ++ code ++ lit ":" ++ subcode ++ tail
    = (d1 ++ lit ":" ++ d2 ++ lit ":" ++ code ++ lit ":" ++ subcode) ++ tail).
  { intros d1 d2 tail. by rewrite !append_assoc. }
  split.
  - intros (d1 & d2 & Hd1 & Hd2 & Heq). exists d1, d2.
    destruct (chomp_cases s) as [Hs|Hs]; rewrite Heq in Hs.
    + exists []. rewrite Hassoc, append_nil_r. auto.
    + exists nl. rewrite Hassoc. auto.
  - intros (d1 & d2 & tail & Hd1 & Hd2 & Htail & ->). exists d1, d2.
    split; [done|]. split; [done|]. rewrite Hassoc.
    destruct Htail as [->| ->].
    + rewrite append_nil_r. by apply chomp_shape.
    + apply chomp_app_nl.
Qed.

Lemma re_antibacterial_chomp s :
  re_match re_antibacterial s = spec_shape (lit "41") (lit "30") (chomp s).
Proof.
  apply eq_iff_eq_true.
  rewrite re_antibacterial_spec, (spec_shape_chomp (lit "41") (lit "30")) by done.
  done.
Qed.

Lemma re_antiformaldehyde_chomp s :
  re_match re_antiformaldehyde s
  = spec_shape (lit "30") (lit "31") (chomp s) || spec_shape (lit "0") (lit "31") (chomp s)
    || spec_shape (lit "00") (lit "31") (chomp s).
Proof.
  apply eq_iff_eq_true.
  rewrite re_antiformaldehyde_spec, !orb_true_iff.
  rewrite (spec_shape_chomp (lit "30") (lit "31")), (spec_shape_chomp (lit "0") (lit "31")),
    (spec_shape_chomp (lit "00") (lit "31")) by done.
  split.
  - intros (d1 & d2 & code & tail & Hd1 & Hd2 & Hcode & Htail & ->).
    destruct Hcode as [->|[->| ->]];
      [left; left|left; right|right]; exists d1, d2, tail; done.
  - intros [[H|H]|H]; destruct H as (d1 & d2 & tail & Hd1 & Hd2 & Htail & ->);
      exists d1, d2; [exists (lit "30")|exists (lit "0")|exists (lit "00")]; exists tail;
      auto 10.
Qed.

(** The ordered rules compute the specification's classification of the
    string without its final newline. *)
Lemma first_match_spec s :
  first_match FILTER_TYPE_RE s = Some (spec_classify (chomp s)).
Proof.
  unfold spec_classify. simpl.
  rewrite re_antibacterial_chomp, re_antiformaldehyde_chomp, re_any_spec.
  destruct (spec_shape (lit "41") (lit "30") (chomp s)); [done|].
  by destruct (spec_shape (lit "30") (lit "31") (chomp s) || spec_shape (lit "0") (lit "31") (chomp s)
               || spec_shape (lit "00") (lit "31") (chomp s)).
Qed.

(** ** The classifier and its cache *)

Lemma scan_first_match rules product_id h :
  scan rules product_id h =
  match first_match rules product_id with
  | Some t =>
      (Ok (Some t), mkState (self h) (<[product_id := t]> (_filter_type_cache h)))
  | None => (Ok None, h)
  end.
Proof.
  induction rules as [|[filter_re t] rules IH]; simpl; [done|].
  destruct (re_match filter_re product_id); [done|]. apply IH.
Qed.

Lemma scan_counted_erase rules product_id h :
  scan rules product_id h =
  ((match (scan_counted rules product_id h).1 with
    | Ok r => Ok r.1
    | Raise e => Raise e
    end), (scan_counted rules product_id h).2).
Proof.
  induction rules as [|[filter_re t] rules IH]; simpl; [done|].
  destruct (re_match filter_re product_id); [done|].
  rewrite IH. unfold mbind, M_bind.
  by destruct (scan_counted rules product_id h) as [[[ft n]|e] h'].
Qed.

Lemma get_filter_type_unfold product_id h :
  _get_filter_type product_id h =
  match _filter_type_cache h !! product_id with
  | Some t => (Ok (Some t), h)
  | None =>
      (Ok (Some (spec_classify (chomp product_id))),
       mkState (self h)
         (<[product_id := spec_classify (chomp product_id)]> (_filter_type_cache h)))
  end.
Proof.
  unfold _get_filter_type, mbind, M_bind, cache_get.
  destruct (_filter_type_cache h !! product_id) as [t|]; [done|].
  by rewrite scan_first_match, first_match_spec.
Qed.

Lemma cache_ok_empty : cache_ok ∅.
Proof. intros k t Hk. by rewrite lookup_empty in Hk. Qed.

Lemma cache_ok_insert c k :
  cache_ok c → cache_ok (<[k := spec_classify (chomp k)]> c).
Proof.
  intros Hc k' t. rewrite lookup_insert. case_decide as Hk.
  - subst k'. intros [= <-]. apply first_match_spec.
  - apply Hc.
Qed.

(** ** The claims *)

(** C1, as stated, fails: the product id ["1:2:41:30\n"] is not of the
    shape ["<digits>:<digits>:41:30"] (nor of the three others), so the
    claim asks for Regular, but [$] also matches before a final newline
    and the classifier answers AntiBacterial. *)
Lemma classify_trailing_newline :
  spec_classify (lit "1:2:41:30" ++ nl) = Regular ∧
  (_get_filter_type (lit "1:2:41:30" ++ nl) empty_state).1 = Ok (Some AntiBacterial) ∧
  (_get_filter_type (lit "1:2:41:30" ++ nl) empty_state).1
    ≠ Ok (Some (spec_classify (lit "1:2:41:30" ++ nl))).
Proof.
  split; [reflexivity|]. split; [reflexivity|]. discriminate.
Qed.

(** C1 (amended): on a cache whose entries are first-match categories,
    the classifier returns, for every product id (any sequence of code
    points), the category the specification gives to the id without one
    final newline: AntiBacterial for ["<digits>:<digits>:41:30"],
    AntiFormaldehyde for ["<digits>:<digits>:30:31"],
    ["<digits>:<digits>:0:31"] and ["<digits>:<digits>:00:31"], Regular
    for everything else, where ["<digits>"] is a non-empty run of the
    characters [\d] matches, the decimal digits of Unicode. *)
Theorem classify_spec product_id h :
  cache_ok (_filter_type_cache h) →
  (_get_filter_type product_id h).1
  = Ok (Some (spec_classify (chomp product_id))).
Proof.
  intros Hc. rewrite get_filter_type_unfold.
  destruct (_filter_type_cache h !! product_id) as [t|] eqn:Hk; [|done].
  apply Hc in Hk. rewrite first_match_spec in Hk. by injection Hk as <-.
Qed.

Lemma classify_spec_witness :
  cache_ok (_filter_type_cache empty_state) ∧
  (_get_filter_type ([1633; 58; 1634]%N ++ lit ":41:30") empty_state).1
  = Ok (Some (spec_classify (chomp ([1633; 58; 1634]%N ++ lit ":41:30")))) ∧
  spec_classify (chomp ([1633; 58; 1634]%N ++ lit ":41:30")) = AntiBacterial.
Proof.
  split; [apply cache_ok_empty|]. split; [|reflexivity].
  apply (classify_spec ([1633; 58; 1634]%N ++ lit ":41:30") empty_state).
  apply cache_ok_empty.
Defined.

(** C2: on every raw mapping that holds an optional string under
    [filter_rfid_tag] and under [filter_rfid_product_id], [filter_type]
    decides in this order: no tag, no type; the all-zero tag, Unknown;
    no product id, Regular; otherwise what the classifier returns for
    the product id (cache effect included). *)
Theorem filter_type_cases h (tag product_id : option pystr) :
  data (self h) !! "filter_rfid_tag" = Some (raw tag) →
  data (self h) !! "filter_rfid_product_id" = Some (raw product_id) →
  filter_type h =
  match tag with
  | None => (Ok None, h)
  | Some t =>
      if bool_decide (t = lit "0:0:0:0:0:0:0") then (Ok (Some Unknown), h)
      else match product_id with
           | None => (Ok (Some Regular), h)
           | Some p => _get_filter_type p h
           end
  end.
Proof.
  intros Htag Hpid.
  unfold filter_type, filter_rfid_tag, filter_rfid_product_id, mbind, M_bind,
    getitem.
  rewrite Htag. destruct tag as [t|]; simpl; [|done].
  rewrite Htag. simpl. destruct (bool_decide (t = lit "0:0:0:0:0:0:0")); [done|].
  rewrite Hpid. destruct product_id as [p|]; simpl; [|done].
  by rewrite Hpid.
Qed.

Lemma filter_type_cases_witness :
  filter_type (tagged (Some (lit "80:66:58:da:7f:55:4")) (Some (lit "0:0:41:30")))
  = _get_filter_type (lit "0:0:41:30")
      (tagged (Some (lit "80:66:58:da:7f:55:4")) (Some (lit "0:0:41:30"))).
Proof.
  apply (filter_type_cases
           (tagged (Some (lit "80:66:58:da:7f:55:4")) (Some (lit "0:0:41:30")))
           (Some (lit "80:66:58:da:7f:55:4")) (Some (lit "0:0:41:30")));
    reflexivity.
Defined.

(** ** Decoding the mode *)

Lemma mode_run h v :
  data (self h) !! "mode" = Some v → mode h = (OperationMode_of v, h).
Proof.
  intros Hv. unfold mode, mbind, M_bind, getitem, lift. rewrite Hv.
  by destruct (OperationMode_of v).
Qed.

Lemma OperationMode_of_no_member v :
  (∀ m, as_int v ≠ Some (OperationMode_value m)) →
  OperationMode_of v = Raise (ValueError v).
Proof.
  intros Hno. unfold OperationMode_of.
  pose proof (Hno Auto) as H0. pose proof (Hno Silent) as H1.
  pose proof (Hno Favorite) as H2. pose proof (Hno Fan) as H3.
  simpl in *. destruct (as_int v) as [[|[[p|p|]|[p|p|]|]|p]|]; done.
Qed.

(** C3: the [mode] accessor decodes the raw values 0, 1, 2, 3 to Auto,
    Silent, Favorite, Fan, and raises [ValueError] for every raw value
    that equals no member's code, in particular every integer outside
    0..3; a mode is returned only for a raw value equal to its code. *)
Theorem mode_decode h v :
  data (self h) !! "mode" = Some v →
  (v = VInt 0 → mode h = (Ok Auto, h)) ∧
  (v = VInt 1 → mode h = (Ok Silent, h)) ∧
  (v = VInt 2 → mode h = (Ok Favorite, h)) ∧
  (v = VInt 3 → mode h = (Ok Fan, h)) ∧
  (∀ z, v = VInt z → (z < 0 ∨ 3 < z)%Z → mode h = (Raise (ValueError v), h)) ∧
  ((∀ m, as_int v ≠ Some (OperationMode_value m)) →
   mode h = (Raise (ValueError v), h)) ∧
  (∀ m h', mode h = (Ok m, h') → as_int v = Some (OperationMode_value m)).
Proof.
  intros Hv. rewrite (mode_run h v Hv). repeat split.
  - by intros ->.
  - by intros ->.
  - by intros ->.
  - by intros ->.
  - intros z -> Hz. unfold OperationMode_of. simpl.
    destruct z as [|p|p]; [lia| |done].
    destruct p as [[p|p|]|[p|p|]|]; try done; lia.
  - intros Hno. by rewrite OperationMode_of_no_member.
  - intros m h' [= Hm _]. unfold OperationMode_of in Hm.
    destruct (as_int v) as [[|[[p|p|]|[p|p|]|]|p]|]; try done;
      by injection Hm as <-.
Qed.

Lemma mode_decode_witness :
  mode (with_mode (VInt 2)) = (Ok Favorite, with_mode (VInt 2)) ∧
  mode (with_mode (VInt 4)) = (Raise (ValueError (VInt 4)), with_mode (VInt 4)).
Proof.
  split.
  - apply (mode_decode (with_mode (VInt 2)) (VInt 2)); reflexivity.
  - refine (proj1 (proj2 (proj2 (proj2 (proj2
      (mode_decode (with_mode (VInt 4)) (VInt 4) _))))) 4%Z _ _).
    + reflexivity.
    + reflexivity.
    + right. reflexivity.
Defined.

(** C4: the [led_brightness] accessor never raises on a raw value: [None]
    gives no brightness, 0, 1, 2 give Bright, Dim, Off, and every value
    that equals no member's code (5, say) gives no brightness, the
    [ValueError] being caught. *)
Theorem led_brightness_decode h v :
  data (self h) !! "led_brightness" = Some v →
  ∃ r, led_brightness h = (Ok r, h) ∧
    (v = VNone → r = None) ∧
    (v = VInt 0 → r = Some Bright) ∧
    (v = VInt 1 → r = Some Dim) ∧
    (v = VInt 2 → r = Some Off) ∧
    (∀ z, v = VInt z → (z < 0 ∨ 2 < z)%Z → r = None) ∧
    ((∀ b, as_int v ≠ Some (LedBrightness_value b)) → r = None).
Proof.
  intros Hv.
  exists (match LedBrightness_of v with Ok b => Some b | Raise _ => None end).
  split.
  - unfold led_brightness, except_ValueError, mbind, M_bind, getitem, lift, mret,
      M_ret.
    rewrite Hv. destruct v as [|b|z|s]; simpl; try done; rewrite Hv.
    + by destruct b.
    + unfold LedBrightness_of. simpl.
      destruct z as [|[[p|p|]|[p|p|]|]|p]; done.
    + done.
  - repeat split.
    + by intros ->.
    + by intros ->.
    + by intros ->.
    + by intros ->.
    + intros z -> Hz. unfold LedBrightness_of. simpl.
      destruct z as [|p|p]; [lia| |done].
      destruct p as [[p|p|]|[p|p|]|]; try done; lia.
    + intros Hno. unfold LedBrightness_of.
      pose proof (Hno Bright) as H0. pose proof (Hno Dim) as H1.
      pose proof (Hno Off) as H2.
      simpl in *. destruct (as_int v) as [[|[[p|p|]|[p|p|]|]|p]|]; done.
Qed.

Lemma led_brightness_decode_witness :
  ∃ r, led_brightness (with_led_brightness (VInt 5))
       = (Ok r, with_led_brightness (VInt 5)) ∧ r = None.
Proof.
  destruct (led_brightness_decode (with_led_brightness (VInt 5)) (VInt 5)
              eq_refl) as (r & Hr & _ & _ & _ & _ & Hout & _).
  exists r. split; [exact Hr|].
  apply (Hout 5%Z eq_refl). right. reflexivity.
Defined.

(** C9: on a raw mapping with a boolean under [power], [is_on] returns
    that boolean, [power] returns ["on"] when it is true and ["off"]
    when it is false, and [power] is ["on"] exactly when [is_on] is true. *)
Theorem power_is_on h (b : bool) :
  data (self h) !! "power" = Some (VBool b) →
  is_on h = (Ok (VBool b), h) ∧
  power h = (Ok (if b then "on" else "off"), h) ∧
  (power h = (Ok "on", h) ↔ is_on h = (Ok (VBool true), h)).
Proof.
  intros Hp.
  assert (Hon : is_on h = (Ok (VBool b), h)).
  { unfold is_on, getitem. by rewrite Hp. }
  assert (Hpow : power h = (Ok (if b then "on" else "off"), h)).
  { unfold power, mbind, M_bind. by rewrite Hon. }
  split; [done|]. split; [done|].
  rewrite Hon, Hpow. destruct b; split; intros [= ]; done.
Qed.

Lemma power_is_on_witness :
  is_on (with_power (VBool true)) = (Ok (VBool true), with_power (VBool true)) ∧
  power (with_power (VBool true)) = (Ok "on", with_power (VBool true)).
Proof.
  destruct (power_is_on (with_power (VBool true)) true eq_refl)
    as (Hon & Hpow & _).
  split; [exact Hon|exact Hpow].
Defined.

(** C7, as stated, fails: the constructor only stores the mapping, so a
    snapshot is built from a mapping whose mode is 4; the error comes
    when [mode] is read. *)
Lemma init_accepts_bad_mode :
  AirPurifierMiotStatus_init (<["mode" := VInt 4]> ∅)
  = Ok (mkStatus (<["mode" := VInt 4]> ∅)) ∧
  (∀ e, AirPurifierMiotStatus_init (<["mode" := VInt 4]> ∅) ≠ Raise e) ∧
  (mode (with_mode (VInt 4))).1 = Raise (ValueError (VInt 4)).
Proof. split; [reflexivity|]. split; [discriminate|reflexivity]. Qed.

(** C7 (amended): building a snapshot succeeds for every raw mapping;
    when the raw mode equals no member's code, reading [mode] on the
    snapshot raises [ValueError], whatever the cache holds. *)
Theorem mode_error_on_access d :
  AirPurifierMiotStatus_init d = Ok (mkStatus d) ∧
  ∀ v c, d !! "mode" = Some v →
    (∀ m, as_int v ≠ Some (OperationMode_value m)) →
    mode (mkState (mkStatus d) c)
    = (Raise (ValueError v), mkState (mkStatus d) c).
Proof.
  split; [done|]. intros v c Hv Hno.
  rewrite (mode_run (mkState (mkStatus d) c) v Hv).
  by rewrite OperationMode_of_no_member.
Qed.

Lemma mode_error_on_access_witness :
  mode (with_mode (VInt 4)) = (Raise (ValueError (VInt 4)), with_mode (VInt 4)).
Proof.
  refine (proj2 (mode_error_on_access (<["mode" := VInt 4]> ∅))
            (VInt 4) ∅ eq_refl _).
  intros m. destruct m; discriminate.
Defined.

(** C5: [set_fan_level] raises the class's exception and sends nothing
    for every level outside 1..3, and for 1, 2, 3 sends exactly one
    write, to [{siid: 2, piid: 4}]; [set_favorite_level] does the same
    with the range 0..14 and [{siid: 10, piid: 10}].  The log of calls
    is unchanged when the check fails. *)
Theorem setters_validate set_reply (level : Z) (log : list call) :
  ((level < 1 ∨ 3 < level)%Z →
   set_fan_level set_reply level log
   = (Raise (AirPurifierMiotException ("Invalid fan level: " +:+ pretty level)),
      log)) ∧
  ((1 ≤ level ≤ 3)%Z →
   set_fan_level set_reply level log
   = (set_reply (mkAddr 2 4) (VInt level),
      (log ++ [SetProperty (mkAddr 2 4) (VInt level)])%list)) ∧
  ((level < 0 ∨ 14 < level)%Z →
   set_favorite_level set_reply level log
   = (Raise (AirPurifierMiotException
               ("Invalid favorite level: " +:+ pretty level)),
      log)) ∧
  ((0 ≤ level ≤ 14)%Z →
   set_favorite_level set_reply level log
   = (set_reply (mkAddr 10 10) (VInt level),
      (log ++ [SetProperty (mkAddr 10 10) (VInt level)])%list)).
Proof.
  unfold set_fan_level, set_favorite_level, raiseD, set_property.
  repeat split; intros Hl.
  - destruct (Z.ltb_spec level 1), (Z.gtb_spec level 3); simpl; try done; lia.
  - destruct (Z.ltb_spec level 1), (Z.gtb_spec level 3); simpl; try done; lia.
  - destruct (Z.ltb_spec level 0), (Z.gtb_spec level 14); simpl; try done; lia.
  - destruct (Z.ltb_spec level 0), (Z.gtb_spec level 14); simpl; try done; lia.
Qed.

Lemma setters_validate_witness :
  set_fan_level (λ _ _, Ok VNone) 4 []
  = (Raise (AirPurifierMiotException "Invalid fan level: 4"), []) ∧
  set_fan_level (λ _ _, Ok VNone) 3 []
  = (Ok VNone, [SetProperty (mkAddr 2 4) (VInt 3)]) ∧
  set_favorite_level (λ _ _, Ok VNone) (-1) []
  = (Raise (AirPurifierMiotException "Invalid favorite level: -1"), []) ∧
  set_favorite_level (λ _ _, Ok VNone) 14 []
  = (Ok VNone, [SetProperty (mkAddr 10 10) (VInt 14)]).
Proof.
  split; [|split; [|split]].
  - apply (setters_validate (λ _ _, Ok VNone) 4 []). lia.
  - apply (setters_validate (λ _ _, Ok VNone) 3 []). lia.
  - apply (setters_validate (λ _ _, Ok VNone) (-1) []). lia.
  - apply (setters_validate (λ _ _, Ok VNone) 14 []). lia.
Defined.

(** ** Snapshots built by [status] *)

Lemma dict_from_Ok d props d' :
  dict_from d props = Ok d' →
  Forall complete props ∧
  ∀ k, is_Some (d' !! k) ↔ is_Some (d !! k) ∨ Some k ∈ did <$> props.
Proof.
  revert d. induction props as [|[[k0|] [v0|]] props IH]; intros d; simpl;
    try done.
  - intros [= <-]. split; [constructor|]. intros k. split; [by left|].
    intros [Hk|Hk]; [done|]. by apply elem_of_nil in Hk.
  - intros [Hall Hkeys]%IH. split.
    + constructor; [|done]. split; by eexists.
    + intros k. rewrite Hkeys, lookup_insert, elem_of_cons.
      case_decide as Hk.
      * subst k0. split; [intros _; right; by left|intros _; left; by eexists].
      * split.
        -- intros [?|?]; [by left|right; by right].
        -- intros [?|[[= <-]|?]]; [by left|done|by right].
Qed.

Lemma dict_from_complete d props :
  Forall complete props → ∃ d', dict_from d props = Ok d'.
Proof.
  intros Hall. revert d.
  induction Hall as [|[[k|] [v|]] props [Hk Hv] _ IH]; intros d; simpl.
  - by eexists.
  - apply IH.
  - by destruct Hv.
  - by destruct Hk.
  - by destruct Hk.
Qed.

Lemma status_run get_reply props (log : list call) :
  get_reply mapping = Ok props →
  status get_reply log
  = (match dict_of props with
     | Ok d => Ok (mkStatus d)
     | Raise e => Raise e
     end, (log ++ [GetProperties mapping])%list).
Proof.
  intros Hreply. unfold status, get_properties, mbind, D_bind, liftD.
  rewrite Hreply. by destruct (dict_of props).
Qed.

(** C8 fails on the code: the table has no entry for [button_pressed],
    so a snapshot that [status] builds from the values of registered
    properties has no such key, and the accessor raises [KeyError]:
    on every snapshot that [status] returns, and [status] does return
    one when every entry of the answer has its name and its value. *)
Theorem button_pressed_unregistered get_reply props (log : list call) :
  get_reply mapping = Ok props →
  Forall (λ p : answer, ∀ k, did p = Some k → is_Some (mapping_get mapping k))
    props →
  (Forall complete props →
   ∃ st, status get_reply log = (Ok st, (log ++ [GetProperties mapping])%list) ∧
     ∀ c, button_pressed (mkState st c)
          = (Raise (KeyError "button_pressed"), mkState st c)) ∧
  (∀ st log', status get_reply log = (Ok st, log') →
     ∀ c, button_pressed (mkState st c)
          = (Raise (KeyError "button_pressed"), mkState st c)).
Proof.
  intros Hreply Hreg.
  assert (Hkey : ∀ d, dict_of props = Ok d → d !! "button_pressed" = None).
  { intros d [_ Hkeys]%dict_from_Ok.
    apply eq_None_not_Some. rewrite Hkeys, lookup_empty.
    intros [[? ?]|Hin]; [done|].
    apply list_elem_of_fmap in Hin as (p & Hp & Hin).
    rewrite Forall_forall in Hreg.
    destruct (Hreg p Hin "button_pressed" (eq_sym Hp)) as [a Ha].
    discriminate. }
  rewrite (status_run get_reply props log Hreply). split.
  - intros Hall. destruct (dict_from_complete ∅ props Hall) as [d Hd].
    unfold dict_of in *. rewrite Hd. exists (mkStatus d). split; [done|].
    intros c. unfold button_pressed, getitem. simpl. by rewrite (Hkey d Hd).
  - intros st log'. destruct (dict_of props) as [d|e] eqn:Hd; [|done].
    intros [= <- _] c. unfold button_pressed, getitem. simpl.
    by rewrite (Hkey d eq_refl).
Qed.

Lemma button_pressed_unregistered_witness :
  ∃ st, status all_None [] = (Ok st, [GetProperties mapping]) ∧
    ∀ c, button_pressed (mkState st c)
         = (Raise (KeyError "button_pressed"), mkState st c).
Proof.
  apply (button_pressed_unregistered all_None (answers (λ _, VNone) mapping) []).
  - reflexivity.
  - repeat (constructor; [intros k [= <-]; eexists; reflexivity|]). constructor.
  - repeat (constructor; [split; eexists; reflexivity|]). constructor.
Defined.

(** ** Memoization *)

Lemma get_filter_type_counted_unfold product_id h :
  _get_filter_type_counted product_id h =
  match _filter_type_cache h !! product_id with
  | Some t => (Ok (Some t, O), h)
  | None => scan_counted FILTER_TYPE_RE product_id h
  end.
Proof.
  unfold _get_filter_type_counted, mbind, M_bind, cache_get.
  by destruct (_filter_type_cache h !! product_id).
Qed.

Lemma get_filter_type_counted_erase product_id h :
  _get_filter_type product_id h =
  ((match (_get_filter_type_counted product_id h).1 with
    | Ok r => Ok r.1
    | Raise e => Raise e
    end), (_get_filter_type_counted product_id h).2).
Proof.
  rewrite get_filter_type_counted_unfold.
  unfold _get_filter_type, mbind, M_bind, cache_get.
  destruct (_filter_type_cache h !! product_id); [done|].
  apply scan_counted_erase.
Qed.

(** C6: a call of the classifier returns a filter type and leaves it in
    the cache under the product id, other keys untouched; a second call
    for the same id, from any instance (the cache belongs to the class),
    returns the same type with no call of [filter_re.match] and changes
    nothing. *)
Theorem classifier_memoized product_id h :
  ∃ t n,
    _get_filter_type_counted product_id h
    = (Ok (Some t, n), (_get_filter_type product_id h).2) ∧
    _get_filter_type product_id h
    = (Ok (Some t), (_get_filter_type product_id h).2) ∧
    _filter_type_cache (_get_filter_type product_id h).2 !! product_id = Some t ∧
    (∀ k, k ≠ product_id →
       _filter_type_cache (_get_filter_type product_id h).2 !! k
       = _filter_type_cache h !! k) ∧
    ∀ other : AirPurifierMiotStatus,
      let h' := mkState other (_filter_type_cache (_get_filter_type product_id h).2) in
      _get_filter_type_counted product_id h' = (Ok (Some t, O), h') ∧
      _get_filter_type product_id h' = (Ok (Some t), h').
Proof.
  pose proof (get_filter_type_counted_erase product_id h) as Herase.
  rewrite get_filter_type_unfold in *.
  rewrite get_filter_type_counted_unfold in *.
  destruct (_filter_type_cache h !! product_id) as [t|] eqn:Hk.
  - exists t, O. simpl.
    split; [done|]. split; [done|]. split; [done|]. split; [done|].
    intros other. split.
    + rewrite get_filter_type_counted_unfold. simpl. by rewrite Hk.
    + rewrite get_filter_type_unfold. simpl. by rewrite Hk.
  - destruct (scan_counted FILTER_TYPE_RE product_id h) as [[[ft n]|e] h1];
      simpl in Herase; [|done].
    injection Herase as <- <-.
    exists (spec_classify (chomp product_id)), n. simpl.
    split; [done|]. split; [done|].
    split; [apply lookup_insert_eq|].
    split; [intros k Hne; by apply lookup_insert_ne|].
    intros other. split.
    + rewrite get_filter_type_counted_unfold. simpl. by rewrite lookup_insert_eq.
    + rewrite get_filter_type_unfold. simpl. by rewrite lookup_insert_eq.
Qed.

Lemma classifier_memoized_witness :
  ∃ t n,
    _get_filter_type_counted (lit "0:0:30:31") empty_state
    = (Ok (Some t, n), (_get_filter_type (lit "0:0:30:31") empty_state).2) ∧
    ∀ other : AirPurifierMiotStatus,
      _get_filter_type_counted (lit "0:0:30:31")
        (mkState other
           (_filter_type_cache (_get_filter_type (lit "0:0:30:31") empty_state).2))
      = (Ok (Some t, O),
         mkState other
           (_filter_type_cache (_get_filter_type (lit "0:0:30:31") empty_state).2)).
Proof.
  destruct (classifier_memoized (lit "0:0:30:31") empty_state)
    as (t & n & H1 & _ & _ & _ & H2).
  exists t, n. split; [exact H1|]. intros other. apply (H2 other).
Defined.

(** ** Frame *)

Lemma getitem_state key h : (getitem key h).2 = h.
Proof. unfold getitem. by destruct (data (self h) !! key). Qed.

Lemma guarded_getitem_state key h :
  ((v ← getitem key;
    if negb (is_None v) then getitem key else mret VNone) h).2 = h.
Proof.
  unfold mbind, M_bind, getitem, mret, M_ret.
  destruct (data (self h) !! key) as [v|] eqn:Hv; [|done].
  destruct (negb (is_None v)); [|done]. by rewrite Hv.
Qed.

Lemma filter_type_state h :
  (filter_type h).2 = h ∨
  ∃ product_id, (filter_type h).2 = (_get_filter_type product_id h).2.
Proof.
  unfold filter_type, filter_rfid_tag, filter_rfid_product_id, mbind, M_bind,
    getitem, mret, M_ret, raise.
  destruct (data (self h) !! "filter_rfid_tag") as [tag|] eqn:Htag; [|by left].
  destruct (is_None tag); [by left|]. rewrite Htag.
  destruct (eq_str tag (lit "0:0:0:0:0:0:0")); [by left|].
  destruct (data (self h) !! "filter_rfid_product_id") as [pid|] eqn:Hpid;
    [|by left].
  destruct (is_None pid); [by left|]. rewrite Hpid.
  destruct pid as [|b|z|p]; try by left.
  right. by exists p.
Qed.

Lemma after_other a h : a ≠ A_filter_type → after a h = h.
Proof.
  intros Ha. destruct a; try done; simpl;
    try apply getitem_state; try apply guarded_getitem_state.
  - unfold power, is_on, mbind, M_bind, getitem.
    by destruct (data (self h) !! "power").
  - unfold mode, mbind, M_bind, getitem, lift.
    destruct (data (self h) !! "mode") as [v|]; [|done].
    by destruct (OperationMode_of v).
  - unfold led_brightness, except_ValueError, mbind, M_bind, getitem, lift,
      mret, M_ret.
    destruct (data (self h) !! "led_brightness") as [v|] eqn:Hv; [|done].
    destruct (negb (is_None v)); [|done]. rewrite Hv.
    by destruct (LedBrightness_of v) as [b|[]].
Qed.

(** C10: no accessor changes the snapshot; every accessor but
    [filter_type] changes nothing at all; [filter_type] changes at most
    the cache, by one entry under a product id that had none, whose
    value is the first matching rule's category; entries once written
    stay, and from the empty cache every entry is the first matching
    rule's category of its key, after any series of reads. *)
Theorem accessors_frame a h :
  self (after a h) = self h ∧
  (a ≠ A_filter_type → after a h = h) ∧
  (after a h = h ∨
   ∃ product_id t,
     _filter_type_cache h !! product_id = None ∧
     first_match FILTER_TYPE_RE product_id = Some t ∧
     _filter_type_cache (after a h)
     = <[product_id := t]> (_filter_type_cache h)) ∧
  (∀ k t, _filter_type_cache h !! k = Some t →
          _filter_type_cache (after a h) !! k = Some t) ∧
  (cache_ok (_filter_type_cache h) → cache_ok (_filter_type_cache (after a h))) ∧
  (∀ l, cache_ok (reads l ∅)).
Proof.
  assert (Hstep : ∀ a h,
    after a h = h ∨
    ∃ product_id,
      _filter_type_cache h !! product_id = None ∧
      after a h = mkState (self h)
        (<[product_id := spec_classify (chomp product_id)]> (_filter_type_cache h))).
  { clear. intros a h. destruct (decide (a = A_filter_type)) as [->|Hne];
      [|left; by apply after_other].
    simpl. destruct (filter_type_state h) as [->|[p ->]]; [by left|].
    rewrite get_filter_type_unfold.
    destruct (_filter_type_cache h !! p) eqn:Hp; [by left|].
    right. by exists p. }
  assert (Hok : ∀ a h, cache_ok (_filter_type_cache h) →
                        cache_ok (_filter_type_cache (after a h))).
  { clear -Hstep. intros a h Hc.
    destruct (Hstep a h) as [->|(p & _ & ->)]; [done|].
    by apply cache_ok_insert. }
  split; [|split; [|split; [|split; [|split]]]].
  - destruct (Hstep a h) as [->|(p & _ & ->)]; done.
  - apply after_other.
  - destruct (Hstep a h) as [->|(p & Hp & ->)]; [by left|].
    right. exists p, (spec_classify (chomp p)).
    split; [done|]. split; [apply first_match_spec|done].
  - intros k t Hk. destruct (Hstep a h) as [->|(p & Hp & ->)]; [done|].
    simpl. rewrite lookup_insert_ne; [done|]. intros ->. congruence.
  - apply Hok.
  - intros l. generalize (cache_ok_empty).
    generalize (∅ : gmap pystr FilterType).
    induction l as [|[st b] l IH]; intros c Hc; simpl; [done|].
    apply IH. by apply (Hok b (mkState st c)).
Qed.

Lemma accessors_frame_witness :
  self (after A_filter_type (tagged (Some (lit "80:66:58:da:7f:55:4")) (Some (lit "0:0:41:30"))))
  = self (tagged (Some (lit "80:66:58:da:7f:55:4")) (Some (lit "0:0:41:30"))) ∧
  after A_mode (with_mode (VInt 4)) = with_mode (VInt 4) ∧
  cache_ok (_filter_type_cache
    (after A_filter_type (tagged (Some (lit "80:66:58:da:7f:55:4")) (Some (lit "0:0:41:30"))))).
Proof.
  split; [|split].
  - apply (accessors_frame A_filter_type
             (tagged (Some (lit "80:66:58:da:7f:55:4")) (Some (lit "0:0:41:30")))).
  - apply (accessors_frame A_mode (with_mode (VInt 4))). discriminate.
  - apply (accessors_frame A_filter_type
             (tagged (Some (lit "80:66:58:da:7f:55:4")) (Some (lit "0:0:41:30")))).
    apply cache_ok_empty.
Defined.

(** * Further properties of the code *)

(** ** Running accessors *)

Lemma bind_Ok {A B} (c : M A) (f : A → M B) h a h' :
  c h = (Ok a, h') → (c ≫= f) h = f a h'.
Proof. intros Hc. unfold mbind, M_bind. by rewrite Hc. Qed.

Lemma bind_Raise {A B} (c : M A) (f : A → M B) h e h' :
  c h = (Raise e, h') → (c ≫= f) h = (Raise e, h').
Proof. intros Hc. unfold mbind, M_bind. by rewrite Hc. Qed.

Lemma getitem_Some key h v :
  data (self h) !! key = Some v → getitem key h = (Ok v, h).
Proof. intros Hk. unfold getitem. by rewrite Hk. Qed.

Lemma getitem_None key h :
  data (self h) !! key = None → getitem key h = (Raise (KeyError key), h).
Proof. intros Hk. unfold getitem. by rewrite Hk. Qed.

Lemma guarded_getitem key h :
  (v ← getitem key;
   if negb (is_None v) then getitem key else mret VNone) h
  = getitem key h.
Proof.
  destruct (data (self h) !! key) as [v|] eqn:Hv.
  - rewrite (bind_Ok _ _ h v h (getitem_Some key h v Hv)).
    rewrite (getitem_Some key h v Hv).
    destruct v; simpl; try (by apply getitem_Some); reflexivity.
  - by rewrite (bind_Raise _ _ h _ h (getitem_None key h Hv)), getitem_None.
Qed.

(** X1: [temperature] and [buzzer] hand the raw value over as it is,
    [None] included: the [is not None] test changes nothing, and a
    missing key raises [KeyError] as for a plain lookup. *)
Theorem optional_fields_pass_through h :
  temperature h = getitem "temperature" h ∧
  buzzer h = getitem "buzzer" h ∧
  (∀ v, data (self h) !! "temperature" = Some v → temperature h = (Ok v, h)) ∧
  (∀ v, data (self h) !! "buzzer" = Some v → buzzer h = (Ok v, h)) ∧
  (data (self h) !! "temperature" = None →
   temperature h = (Raise (KeyError "temperature"), h)) ∧
  (data (self h) !! "buzzer" = None →
   buzzer h = (Raise (KeyError "buzzer"), h)).
Proof.
  assert (Ht : temperature h = getitem "temperature" h)
    by apply guarded_getitem.
  assert (Hb : buzzer h = getitem "buzzer" h) by apply guarded_getitem.
  rewrite Ht, Hb. repeat split.
  - apply getitem_Some.
  - apply getitem_Some.
  - apply getitem_None.
  - apply getitem_None.
Qed.

Lemma optional_fields_pass_through_witness :
  temperature (mkState (mkStatus (<["temperature" := VNone]> ∅)) ∅)
  = (Ok VNone, mkState (mkStatus (<["temperature" := VNone]> ∅)) ∅) ∧
  buzzer empty_state = (Raise (KeyError "buzzer"), empty_state).
Proof.
  split.
  - apply (optional_fields_pass_through
             (mkState (mkStatus (<["temperature" := VNone]> ∅)) ∅)).
    reflexivity.
  - apply (optional_fields_pass_through empty_state). reflexivity.
Defined.

(** ** What a setter writes, the accessor reads back *)

Lemma OperationMode_round_trip m :
  OperationMode_of (VInt (OperationMode_value m)) = Ok m.
Proof. by destruct m. Qed.

Lemma LedBrightness_round_trip b :
  LedBrightness_of (VInt (LedBrightness_value b)) = Ok b.
Proof. by destruct b. Qed.

Lemma led_brightness_run h v :
  data (self h) !! "led_brightness" = Some v →
  led_brightness h
  = (Ok (match LedBrightness_of v with Ok b => Some b | Raise _ => None end), h).
Proof.
  intros Hv.
  unfold led_brightness, except_ValueError, mbind, M_bind, getitem, lift, mret,
    M_ret.
  rewrite Hv. destruct v as [|b|z|s]; simpl; try done; rewrite Hv.
  - by destruct b.
  - unfold LedBrightness_of. simpl.
    destruct z as [|[[p|p|]|[p|p|]|]|p]; done.
  - done.
Qed.

(** X2: [set_mode] sends one write, to the address registered for
    [mode], of the member's code; a snapshot that holds the value sent
    reads back the same member, and two members never send the same
    value. *)
Theorem set_mode_round_trip set_reply (m : OperationMode) (log : list call) :
  set_mode set_reply m log
  = (set_reply (mkAddr 2 5) (VInt (OperationMode_value m)),
     (log ++ [SetProperty (mkAddr 2 5) (VInt (OperationMode_value m))])%list) ∧
  mapping_get mapping "mode" = Some (mkAddr 2 5) ∧
  (∀ h, data (self h) !! "mode" = Some (VInt (OperationMode_value m)) →
        mode h = (Ok m, h)) ∧
  (∀ m', OperationMode_value m' = OperationMode_value m → m' = m).
Proof.
  split; [done|]. split; [done|]. split.
  - intros h Hv. by rewrite (mode_run h _ Hv), OperationMode_round_trip.
  - intros m' Hm. by destruct m, m'.
Qed.

Lemma set_mode_round_trip_witness :
  mode (with_mode (VInt (OperationMode_value Favorite)))
  = (Ok Favorite, with_mode (VInt (OperationMode_value Favorite))).
Proof.
  apply (set_mode_round_trip (λ _ _, Ok VNone) Favorite []). reflexivity.
Defined.

(** X3: [set_led_brightness] sends one write, to the address registered
    for [led_brightness], of the member's code; a snapshot that holds
    the value sent reads back the same member, and two members never
    send the same value. *)
Theorem set_led_brightness_round_trip set_reply (b : LedBrightness)
    (log : list call) :
  set_led_brightness set_reply b log
  = (set_reply (mkAddr 6 1) (VInt (LedBrightness_value b)),
     (log ++ [SetProperty (mkAddr 6 1) (VInt (LedBrightness_value b))])%list) ∧
  mapping_get mapping "led_brightness" = Some (mkAddr 6 1) ∧
  (∀ h, data (self h) !! "led_brightness" = Some (VInt (LedBrightness_value b)) →
        led_brightness h = (Ok (Some b), h)) ∧
  (∀ b', LedBrightness_value b' = LedBrightness_value b → b' = b).
Proof.
  split; [done|]. split; [done|]. split.
  - intros h Hv. by rewrite (led_brightness_run h _ Hv), LedBrightness_round_trip.
  - intros b' Hb. by destruct b, b'.
Qed.

Lemma set_led_brightness_round_trip_witness :
  led_brightness (with_led_brightness (VInt (LedBrightness_value Dim)))
  = (Ok (Some Dim), with_led_brightness (VInt (LedBrightness_value Dim))).
Proof.
  apply (set_led_brightness_round_trip (λ _ _, Ok VNone) Dim []). reflexivity.
Defined.

(** ** The filter type *)

Lemma spec_classify_known s : spec_classify s ≠ Unknown.
Proof.
  unfold spec_classify. destruct (spec_shape (lit "41") (lit "30") s); [done|].
  by destruct (spec_shape (lit "30") (lit "31") s || spec_shape (lit "0") (lit "31") s
               || spec_shape (lit "00") (lit "31") s).
Qed.

Lemma get_filter_type_known product_id h :
  cache_ok (_filter_type_cache h) →
  ∃ t, (_get_filter_type product_id h).1 = Ok (Some t) ∧ t ≠ Unknown.
Proof.
  intros Hc. exists (spec_classify (chomp product_id)).
  split; [|apply spec_classify_known].
  rewrite get_filter_type_unfold.
  destruct (_filter_type_cache h !! product_id) as [t|] eqn:Hk; [|done].
  apply Hc in Hk. rewrite first_match_spec in Hk. by injection Hk as <-.
Qed.

(** X4: on a cache that holds only first-match categories, the
    classifier answers Regular, AntiBacterial or AntiFormaldehyde, never
    Unknown and never nothing; so [filter_type] is Unknown only for a
    snapshot whose tag is the all-zero tag. *)
Theorem unknown_only_for_zero_tag h :
  cache_ok (_filter_type_cache h) →
  (∀ product_id, ∃ t,
     (_get_filter_type product_id h).1 = Ok (Some t) ∧ t ≠ Unknown) ∧
  (∀ h', filter_type h = (Ok (Some Unknown), h') →
     data (self h) !! "filter_rfid_tag" = Some (VStr (lit "0:0:0:0:0:0:0"))).
Proof.
  intros Hc. split; [intros p; by apply get_filter_type_known|].
  intros h'.
  unfold filter_type, filter_rfid_tag, filter_rfid_product_id, mbind, M_bind,
    getitem, mret, M_ret, raise.
  destruct (data (self h) !! "filter_rfid_tag") as [tag|] eqn:Htag; [|done].
  destruct (is_None tag) eqn:Hnone; [done|]. rewrite Htag.
  destruct (eq_str tag (lit "0:0:0:0:0:0:0")) eqn:Hzero.
  - intros _. destruct tag as [|b|z|t]; try done.
    simpl in Hzero. by apply bool_decide_eq_true in Hzero as ->.
  - destruct (data (self h) !! "filter_rfid_product_id") as [pid|] eqn:Hpid;
      [|done].
    destruct (is_None pid); [done|]. rewrite Hpid.
    destruct pid as [|b|z|p]; try done.
    destruct (get_filter_type_known p h Hc) as (t & Ht & Hne).
    destruct (_get_filter_type p h) as [r h1]. simpl in Ht. subst r.
    intros [= -> _]. done.
Qed.

Lemma unknown_only_for_zero_tag_witness :
  ∃ t, (_get_filter_type (lit "1:1:7:7") empty_state).1 = Ok (Some t) ∧ t ≠ Unknown.
Proof.
  apply (unknown_only_for_zero_tag empty_state). apply cache_ok_empty.
Defined.

(** X5: how [filter_type] fails, and where it does not: without the tag
    key it raises [KeyError] for it; with the all-zero tag it answers
    Unknown even when the product id key is missing; with another tag
    and no product id key it raises [KeyError] for that key; with a
    product id that is a number or a boolean it raises [TypeError].  The
    cache is unchanged in all four cases. *)
Theorem filter_type_edges h :
  (data (self h) !! "filter_rfid_tag" = None →
   filter_type h = (Raise (KeyError "filter_rfid_tag"), h)) ∧
  (data (self h) !! "filter_rfid_tag" = Some (VStr (lit "0:0:0:0:0:0:0")) →
   filter_type h = (Ok (Some Unknown), h)) ∧
  (∀ t, data (self h) !! "filter_rfid_tag" = Some (VStr t) →
        t ≠ lit "0:0:0:0:0:0:0" →
        data (self h) !! "filter_rfid_product_id" = None →
        filter_type h = (Raise (KeyError "filter_rfid_product_id"), h)) ∧
  (∀ t pid, data (self h) !! "filter_rfid_tag" = Some (VStr t) →
        t ≠ lit "0:0:0:0:0:0:0" →
        data (self h) !! "filter_rfid_product_id" = Some pid →
        (∃ z, pid = VInt z) ∨ (∃ b, pid = VBool b) →
        filter_type h = (Raise TypeError, h)).
Proof.
  unfold filter_type, filter_rfid_tag, filter_rfid_product_id, mbind, M_bind,
    getitem, mret, M_ret, raise.
  split; [|split; [|split]].
  - by intros ->.
  - intros Htag. rewrite Htag. simpl. by rewrite Htag.
  - intros t Htag Hne Hpid. rewrite Htag. simpl. rewrite Htag. simpl.
    rewrite (bool_decide_eq_false_2 _ Hne). by rewrite Hpid.
  - intros t pid Htag Hne Hpid Hty. rewrite Htag. simpl. rewrite Htag. simpl.
    rewrite (bool_decide_eq_false_2 _ Hne). rewrite Hpid.
    destruct Hty as [[z ->]|[b ->]]; simpl; by rewrite Hpid.
Qed.

Lemma filter_type_edges_witness :
  filter_type empty_state = (Raise (KeyError "filter_rfid_tag"), empty_state) ∧
  filter_type (mkState (mkStatus (<["filter_rfid_tag" := VStr (lit "0:0:0:0:0:0:0")]> ∅)) ∅)
  = (Ok (Some Unknown),
     mkState (mkStatus (<["filter_rfid_tag" := VStr (lit "0:0:0:0:0:0:0")]> ∅)) ∅) ∧
  filter_type (mkState (mkStatus (<["filter_rfid_tag" := VStr (lit "1:2")]> ∅)) ∅)
  = (Raise (KeyError "filter_rfid_product_id"),
     mkState (mkStatus (<["filter_rfid_tag" := VStr (lit "1:2")]> ∅)) ∅) ∧
  filter_type
    (mkState (mkStatus (<["filter_rfid_tag" := VStr (lit "1:2")]>
                          (<["filter_rfid_product_id" := VInt 7]> ∅))) ∅)
  = (Raise TypeError,
     mkState (mkStatus (<["filter_rfid_tag" := VStr (lit "1:2")]>
                          (<["filter_rfid_product_id" := VInt 7]> ∅))) ∅).
Proof.
  split; [|split; [|split]].
  - apply (filter_type_edges empty_state). reflexivity.
  - apply (filter_type_edges
             (mkState (mkStatus (<["filter_rfid_tag" := VStr (lit "0:0:0:0:0:0:0")]> ∅)) ∅)).
    reflexivity.
  - apply (proj1 (proj2 (proj2 (filter_type_edges
             (mkState (mkStatus (<["filter_rfid_tag" := VStr (lit "1:2")]> ∅)) ∅))))
             (lit "1:2")); [reflexivity|discriminate|reflexivity].
  - apply (proj2 (proj2 (proj2 (filter_type_edges
             (mkState (mkStatus (<["filter_rfid_tag" := VStr (lit "1:2")]>
                (<["filter_rfid_product_id" := VInt 7]> ∅))) ∅))))
             (lit "1:2") (VInt 7)); [reflexivity|discriminate|reflexivity|].
    left. by exists 7%Z.
Defined.

(** ** The rules *)

(** X6: no product id matches both of the first two patterns of
    [FILTER_TYPE_RE], so their order does not matter; a product id is
    Regular exactly when neither matches. *)
Theorem rules_disjoint s :
  (re_match re_antibacterial s = true →
   re_match re_antiformaldehyde s = false) ∧
  (first_match FILTER_TYPE_RE s = Some AntiBacterial ↔
   re_match re_antibacterial s = true) ∧
  (first_match FILTER_TYPE_RE s = Some AntiFormaldehyde ↔
   re_match re_antiformaldehyde s = true) ∧
  (first_match FILTER_TYPE_RE s = Some Regular ↔
   re_match re_antibacterial s = false ∧
   re_match re_antiformaldehyde s = false).
Proof.
  assert (Hdisj : re_match re_antibacterial s = true →
                  re_match re_antiformaldehyde s = false).
  { rewrite re_antibacterial_chomp, re_antiformaldehyde_chomp.
    unfold spec_shape.
    destruct (fields (chomp s)) as [|a [|b [|c [|d [|e fs]]]]]; try done.
    intros [[_ Hc%bool_decide_eq_true]%andb_true_iff
            Hd%bool_decide_eq_true]%andb_true_iff.
    subst c d. by rewrite !andb_false_r. }
  split; [exact Hdisj|]. simpl. rewrite re_any_spec.
  destruct (re_match re_antibacterial s) eqn:Hab.
  - rewrite (Hdisj eq_refl). repeat split; try done; by intros [? ?].
  - destruct (re_match re_antiformaldehyde s); repeat split; try done;
      by intros [? ?].
Qed.

Lemma rules_disjoint_witness :
  re_match re_antiformaldehyde (lit "1:2:41:30") = false ∧
  first_match FILTER_TYPE_RE (lit "1:2:41:30") = Some AntiBacterial.
Proof.
  split.
  - apply (proj1 (rules_disjoint (lit "1:2:41:30"))). reflexivity.
  - apply (proj1 (proj2 (rules_disjoint (lit "1:2:41:30")))). reflexivity.
Defined.

(** ** The address table *)

Lemma mapping_get_elem m key a :
  mapping_get m key = Some a → (key, a) ∈ m.
Proof.
  induction m as [|[k b] m IH]; simpl; [done|].
  destruct (String.eqb_spec k key) as [->|Hne].
  - intros [= ->]. apply list_elem_of_here.
  - intros Hm. apply list_elem_of_further. by apply IH.
Qed.

Lemma mapping_get_Some m key :
  key ∈ m.*1 → is_Some (mapping_get m key).
Proof.
  induction m as [|[k b] m IH]; simpl.
  - intros Hk. by apply elem_of_nil in Hk.
  - intros Hk. destruct (String.eqb_spec k key) as [->|Hne]; [by eexists|].
    apply IH. apply elem_of_cons in Hk as [Hk|Hk]; [by subst|done].
Qed.

Lemma mapping_get_inj m k1 k2 a :
  NoDup m.*2 →
  mapping_get m k1 = Some a → mapping_get m k2 = Some a → k1 = k2.
Proof.
  induction m as [|[k b] m IH]; simpl; [done|].
  intros [Hb Hnd]%NoDup_cons.
  destruct (String.eqb_spec k k1) as [E1|Hne1],
           (String.eqb_spec k k2) as [E2|Hne2].
  - congruence.
  - intros [= ->] H2%mapping_get_elem. destruct Hb.
    apply list_elem_of_fmap. by exists (k2, a).
  - intros H1%mapping_get_elem [= ->]. destruct Hb.
    apply list_elem_of_fmap. by exists (k1, a).
  - by apply IH.
Qed.

(** X7: the table registers twenty names, no name twice and no address
    twice, so two names that resolve to the same address are the same
    name; [button_pressed] is not among them. *)
Theorem mapping_unique :
  length mapping = 20%nat ∧
  NoDup mapping.*1 ∧
  NoDup mapping.*2 ∧
  (∀ k1 k2 a, mapping_get mapping k1 = Some a →
              mapping_get mapping k2 = Some a → k1 = k2) ∧
  mapping_get mapping "button_pressed" = None.
Proof.
  assert (Hnd : NoDup mapping.*2).
  { apply (bool_decide_unpack _). by vm_compute. }
  split; [done|]. split; [|split; [done|split; [|done]]].
  - apply (bool_decide_unpack _). by vm_compute.
  - intros k1 k2 a. by apply mapping_get_inj.
Qed.

(** ** Building the mapping of a snapshot *)

Lemma dict_from_app d pre post :
  dict_from d (pre ++ post)
  = match dict_from d pre with
    | Ok d1 => dict_from d1 post
    | Raise e => Raise e
    end.
Proof.
  revert d. induction pre as [|[[k|] [v|]] pre IH]; intros d; simpl; try done.
Qed.

Lemma dict_from_other d props d' k :
  dict_from d props = Ok d' → Some k ∉ did <$> props → d' !! k = d !! k.
Proof.
  revert d. induction props as [|[[k0|] [v0|]] props IH]; intros d; simpl;
    try done.
  - by intros [= <-].
  - intros Hd [Hne Hk]%not_elem_of_cons.
    rewrite (IH _ Hd Hk). apply lookup_insert_ne. congruence.
Qed.

(** X8: when the comprehension completes, the mapping it builds from the
    device's answer holds a key exactly when an entry of the answer
    names it, and for a name given more than once the last value wins. *)
Theorem dict_of_last_wins (props rest : list answer) k v :
  (∀ d, dict_of props = Ok d →
        (is_Some (d !! k) ↔ Some k ∈ did <$> props)) ∧
  (∀ d, Some k ∉ did <$> rest →
        dict_of (props ++ mkAnswer (Some k) (Some v) :: rest) = Ok d →
        d !! k = Some v).
Proof.
  unfold dict_of. split.
  - intros d [_ Hkeys]%dict_from_Ok. rewrite Hkeys, lookup_empty.
    split; [|by right]. intros [[? ?]|?]; done.
  - intros d Hk. rewrite dict_from_app.
    destruct (dict_from ∅ props) as [d1|e]; [|done]. simpl.
    intros Hd. rewrite (dict_from_other _ _ _ _ Hd Hk).
    apply lookup_insert_eq.
Qed.

Lemma dict_of_last_wins_witness :
  ∃ d, dict_of ([mkAnswer (Some "aqi") (Some (VInt 3))]
                ++ mkAnswer (Some "aqi") (Some (VInt 5))
                   :: [mkAnswer (Some "led") (Some (VBool true))]) = Ok d ∧
       d !! "aqi" = Some (VInt 5).
Proof.
  eexists. split; [reflexivity|].
  apply (proj2 (dict_of_last_wins [mkAnswer (Some "aqi") (Some (VInt 3))]
                  [mkAnswer (Some "led") (Some (VBool true))] "aqi" (VInt 5))).
  - intros Hin. apply elem_of_cons in Hin as [Hin|Hin]; [discriminate|].
    by apply elem_of_nil in Hin.
  - reflexivity.
Defined.

Lemma dict_from_first_incomplete d pre prop rest :
  Forall complete pre →
  dict_from d (pre ++ prop :: rest)
  = match did prop, value_of prop with
    | None, _ => Raise (KeyError "did")
    | Some _, None => Raise (KeyError "value")
    | Some k, Some v =>
        match dict_from d pre with
        | Ok d1 => dict_from (<[k := v]> d1) rest
        | Raise e => Raise e
        end
    end.
Proof.
  intros Hpre. rewrite dict_from_app.
  destruct (dict_from_complete d pre Hpre) as [d1 ->].
  by destruct prop as [[k|] [v|]].
Qed.

(** X9: [status] sends exactly one batch read, of the whole table, and
    raises the transport's error when the transport fails.  When the
    transport answers, [status] returns a snapshot exactly when every
    entry of the answer holds both ["did"] and ["value"]; at the first
    entry that does not, it raises [KeyError] for ["value"] when the
    entry has a name, and for ["did"] when it has a value. *)
Theorem status_reads_once get_reply (log : list call) :
  (status get_reply log).2 = (log ++ [GetProperties mapping])%list ∧
  (∀ e, get_reply mapping = Raise e → (status get_reply log).1 = Raise e) ∧
  (∀ props, get_reply mapping = Ok props →
     ((∃ st, (status get_reply log).1 = Ok st) ↔ Forall complete props) ∧
     (∀ pre k rest, props = pre ++ mkAnswer (Some k) None :: rest →
        Forall complete pre →
        (status get_reply log).1 = Raise (KeyError "value")) ∧
     (∀ pre v rest, props = pre ++ mkAnswer None (Some v) :: rest →
        Forall complete pre →
        (status get_reply log).1 = Raise (KeyError "did"))).
Proof.
  split; [|split].
  - unfold status, get_properties, mbind, D_bind, liftD.
    destruct (get_reply mapping) as [props|e]; [|done].
    by destruct (dict_of props).
  - intros e He. unfold status, get_properties, mbind, D_bind. by rewrite He.
  - intros props Hreply. rewrite (status_run get_reply props log Hreply).
    simpl. split; [|split].
    + split.
      * intros [st Hst]. destruct (dict_of props) as [d|e] eqn:Hd; [|done].
        by apply dict_from_Ok in Hd as [Hall _].
      * intros Hall. destruct (dict_from_complete ∅ props Hall) as [d Hd].
        unfold dict_of. rewrite Hd. by eexists.
    + intros pre k rest -> Hpre. unfold dict_of.
      by rewrite (dict_from_first_incomplete ∅ pre _ rest Hpre).
    + intros pre v rest -> Hpre. unfold dict_of.
      by rewrite (dict_from_first_incomplete ∅ pre _ rest Hpre).
Qed.

Lemma status_reads_once_witness :
  (status (λ _, Raise TypeError) []).1 = Raise TypeError ∧
  (status (λ _, Ok [mkAnswer (Some "aqi") (Some (VInt 3));
                    mkAnswer (Some "led") None;
                    mkAnswer None (Some VNone)]) []).1
  = Raise (KeyError "value").
Proof.
  split.
  - apply (status_reads_once (λ _, Raise TypeError) []). reflexivity.
  - apply (proj1 (proj2 (proj2 (proj2 (status_reads_once
             (λ _, Ok [mkAnswer (Some "aqi") (Some (VInt 3));
                       mkAnswer (Some "led") None;
                       mkAnswer None (Some VNone)]) [])) _ eq_refl))
             [mkAnswer (Some "aqi") (Some (VInt 3))] "led"
             [mkAnswer None (Some VNone)] eq_refl).
    constructor; [|constructor]. split; eexists; reflexivity.
Defined.

(** ** Commands and the transport *)

Lemma set_property_registered set_reply key addr v (log : list call) :
  mapping_get mapping key = Some addr →
  set_property set_reply key v log
  = (set_reply addr v, (log ++ [SetProperty addr v])%list).
Proof. intros Hk. unfold set_property. by rewrite Hk. Qed.

(** X10: a command whose level is out of range leaves the log of calls
    as it was; every other command extends it by exactly one call:
    [status] by the batch read of the table, a setter by one write to an
    address of the table.  No earlier call is dropped or changed. *)
Theorem command_sends_one get_reply set_reply (cmd : command) (log : list call) :
  (rejected cmd = true → log_after get_reply set_reply cmd log = log) ∧
  (rejected cmd = false →
   ∃ c, log_after get_reply set_reply cmd log = (log ++ [c])%list ∧
        match c with
        | GetProperties table => cmd = Status ∧ table = mapping
        | SetProperty addr _ => cmd ≠ Status ∧ addr ∈ mapping.*2
        end).
Proof.
  assert (Hin : ∀ key addr, mapping_get mapping key = Some addr →
                            addr ∈ mapping.*2).
  { intros key addr Hk%mapping_get_elem.
    apply list_elem_of_fmap. by exists (key, addr). }
  assert (Hfin : ∀ key addr v, mapping_get mapping key = Some addr →
            cmd ≠ Status →
            ∃ c, (set_property set_reply key v log).2 = (log ++ [c])%list ∧
              match c with
              | GetProperties table => cmd = Status ∧ table = mapping
              | SetProperty a _ => cmd ≠ Status ∧ a ∈ mapping.*2
              end).
  { intros key addr v Hk Hne. exists (SetProperty addr v).
    rewrite (set_property_registered set_reply key addr v log Hk).
    split; [done|]. split; [done|by eapply Hin]. }
  split.
  - destruct cmd; simpl; try done; intros Hr.
    + unfold set_fan_level. by rewrite Hr.
    + unfold set_favorite_level. by rewrite Hr.
  - destruct cmd; simpl; intros Hr.
    + exists (GetProperties mapping). split; [|done].
      unfold status, get_properties, mbind, D_bind, liftD.
      destruct (get_reply mapping) as [props|e]; [|done].
      by destruct (dict_of props).
    + by apply (Hfin "power" (mkAddr 2 2)).
    + by apply (Hfin "power" (mkAddr 2 2)).
    + unfold set_fan_level. rewrite Hr. by apply (Hfin "fan_level" (mkAddr 2 4)).
    + by apply (Hfin "mode" (mkAddr 2 5)).
    + unfold set_favorite_level. rewrite Hr.
      by apply (Hfin "favorite_level" (mkAddr 10 10)).
    + by apply (Hfin "led_brightness" (mkAddr 6 1)).
    + by apply (Hfin "led" (mkAddr 6 6)).
    + by apply (Hfin "buzzer" (mkAddr 5 1)).
    + by apply (Hfin "child_lock" (mkAddr 7 1)).
Qed.

Lemma command_sends_one_witness :
  log_after all_None (λ _ _, Ok VNone) (SetFanLevel 9) [GetProperties mapping]
  = [GetProperties mapping] ∧
  ∃ c, log_after all_None (λ _ _, Ok VNone) (SetBuzzer true) [] = [c].
Proof.
  split.
  - apply (command_sends_one all_None (λ _ _, Ok VNone) (SetFanLevel 9)
             [GetProperties mapping]). reflexivity.
  - destruct (proj2 (command_sends_one all_None (λ _ _, Ok VNone)
                       (SetBuzzer true) []) eq_refl) as (c & Hc & _).
    exists c. exact Hc.
Defined.

(** ** Printing *)

Lemma bind_Ok_inv {A B} (c : M A) (f : A → M B) h b h2 :
  (c ≫= f) h = (Ok b, h2) →
  ∃ a h1, c h = (Ok a, h1) ∧ f a h1 = (Ok b, h2).
Proof.
  unfold mbind, M_bind. destruct (c h) as [[a|e] h1]; [|done].
  intros Hf. by exists a, h1.
Qed.

Lemma getitem_Ok_inv key h v h1 :
  getitem key h = (Ok v, h1) → h1 = h ∧ data (self h) !! key = Some v.
Proof.
  unfold getitem. destruct (data (self h) !! key); [|done].
  by intros [= -> ->].
Qed.

Lemma power_run h v :
  data (self h) !! "power" = Some v →
  power h = (Ok (if truthy v then "on" else "off"), h).
Proof.
  intros Hv. unfold power, is_on.
  by rewrite (bind_Ok _ _ h v h (getitem_Some _ h v Hv)).
Qed.

Lemma power_Ok_inv h s h1 :
  power h = (Ok s, h1) → h1 = h ∧ is_Some (data (self h) !! "power").
Proof.
  intros (v & h' & [-> Hv]%getitem_Ok_inv & [= _ ->])%bind_Ok_inv.
  split; [done|by eexists].
Qed.

Lemma mode_Ok_inv h m h1 :
  mode h = (Ok m, h1) →
  h1 = h ∧ ∃ v, data (self h) !! "mode" = Some v ∧ OperationMode_of v = Ok m.
Proof.
  intros (v & h' & [-> Hv]%getitem_Ok_inv & [= Hm ->])%bind_Ok_inv.
  split; [done|]. by exists v.
Qed.

Lemma led_brightness_Ok_inv h b h1 :
  led_brightness h = (Ok b, h1) →
  h1 = h ∧ is_Some (data (self h) !! "led_brightness").
Proof.
  destruct (data (self h) !! "led_brightness") as [v|] eqn:Hv.
  - rewrite (led_brightness_run h v Hv). intros [= _ ->].
    split; [done|by eexists].
  - unfold led_brightness.
    by rewrite (bind_Raise _ _ h _ h (getitem_None _ h Hv)).
Qed.

Lemma repr_printable h :
  printable h → ∃ s, __repr__ h = (Ok s, (filter_type h).2).
Proof.
  intros (Hkeys & (vm & m & Kmode & Hm) & (ft & h1 & Hft)).
  unfold repr_keys in Hkeys.
  repeat (apply Forall_cons in Hkeys as [[? ?] Hkeys]).
  rewrite Hft. eexists. unfold __repr__.
  erewrite (bind_Ok power _ h _ h) by (by eapply power_run).
  erewrite (bind_Ok aqi _ h _ h) by (by eapply getitem_Some).
  erewrite (bind_Ok average_aqi _ h _ h) by (by eapply getitem_Some).
  erewrite (bind_Ok temperature _ h _ h)
    by (unfold temperature; rewrite guarded_getitem; by eapply getitem_Some).
  erewrite (bind_Ok humidity _ h _ h) by (by eapply getitem_Some).
  erewrite (bind_Ok fan_level _ h _ h) by (by eapply getitem_Some).
  erewrite (bind_Ok mode _ h m h) by (by rewrite (mode_run h vm Kmode), Hm).
  erewrite (bind_Ok led _ h _ h) by (by eapply getitem_Some).
  erewrite (bind_Ok led_brightness _ h _ h) by (by eapply led_brightness_run).
  erewrite (bind_Ok buzzer _ h _ h)
    by (unfold buzzer; rewrite guarded_getitem; by eapply getitem_Some).
  erewrite (bind_Ok child_lock _ h _ h) by (by eapply getitem_Some).
  erewrite (bind_Ok favorite_level _ h _ h) by (by eapply getitem_Some).
  erewrite (bind_Ok filter_life_remaining _ h _ h) by (by eapply getitem_Some).
  erewrite (bind_Ok filter_hours_used _ h _ h) by (by eapply getitem_Some).
  erewrite (bind_Ok use_time _ h _ h) by (by eapply getitem_Some).
  erewrite (bind_Ok purify_volume _ h _ h) by (by eapply getitem_Some).
  erewrite (bind_Ok motor_speed _ h _ h) by (by eapply getitem_Some).
  erewrite (bind_Ok filter_rfid_product_id _ h _ h) by (by eapply getitem_Some).
  erewrite (bind_Ok filter_rfid_tag _ h _ h) by (by eapply getitem_Some).
  erewrite (bind_Ok filter_type _ h ft h1) by exact Hft.
  reflexivity.
Qed.

(** X11: [__repr__] returns a string exactly when the eighteen keys it
    reads directly are present, the raw mode decodes, and [filter_type]
    returns; it then leaves the state that [filter_type] leaves.  The
    key [button_pressed] is not needed. *)
Theorem repr_succeeds_iff h :
  ("button_pressed" ∉ repr_keys) ∧
  (printable h ↔ ∃ s h1, __repr__ h = (Ok s, h1)) ∧
  (∀ s h1, __repr__ h = (Ok s, h1) → h1 = (filter_type h).2).
Proof.
  assert (Hinv : ∀ s h1, __repr__ h = (Ok s, h1) →
            printable h ∧ h1 = (filter_type h).2).
  { intros s h1 Hr. unfold __repr__ in Hr.
    apply bind_Ok_inv in Hr as (v1 & h' & [-> K1]%power_Ok_inv & Hr).
    apply bind_Ok_inv in Hr as (v2 & h' & [-> K2]%getitem_Ok_inv & Hr).
    apply bind_Ok_inv in Hr as (v3 & h' & [-> K3]%getitem_Ok_inv & Hr).
    apply bind_Ok_inv in Hr as (v4 & h' & Hacc & Hr).
    unfold temperature in Hacc. rewrite guarded_getitem in Hacc.
    apply getitem_Ok_inv in Hacc as [-> K4].
    apply bind_Ok_inv in Hr as (v5 & h' & [-> K5]%getitem_Ok_inv & Hr).
    apply bind_Ok_inv in Hr as (v6 & h' & [-> K6]%getitem_Ok_inv & Hr).
    apply bind_Ok_inv in Hr as (v7 & h' & [-> K7]%mode_Ok_inv & Hr).
    apply bind_Ok_inv in Hr as (v8 & h' & [-> K8]%getitem_Ok_inv & Hr).
    apply bind_Ok_inv in Hr as (v9 & h' & [-> K9]%led_brightness_Ok_inv & Hr).
    apply bind_Ok_inv in Hr as (v10 & h' & Hacc & Hr).
    unfold buzzer in Hacc. rewrite guarded_getitem in Hacc.
    apply getitem_Ok_inv in Hacc as [-> K10].
    apply bind_Ok_inv in Hr as (v11 & h' & [-> K11]%getitem_Ok_inv & Hr).
    apply bind_Ok_inv in Hr as (v12 & h' & [-> K12]%getitem_Ok_inv & Hr).
    apply bind_Ok_inv in Hr as (v13 & h' & [-> K13]%getitem_Ok_inv & Hr).
    apply bind_Ok_inv in Hr as (v14 & h' & [-> K14]%getitem_Ok_inv & Hr).
    apply bind_Ok_inv in Hr as (v15 & h' & [-> K15]%getitem_Ok_inv & Hr).
    apply bind_Ok_inv in Hr as (v16 & h' & [-> K16]%getitem_Ok_inv & Hr).
    apply bind_Ok_inv in Hr as (v17 & h' & [-> K17]%getitem_Ok_inv & Hr).
    apply bind_Ok_inv in Hr as (v18 & h' & [-> K18]%getitem_Ok_inv & Hr).
    apply bind_Ok_inv in Hr as (v19 & h' & [-> K19]%getitem_Ok_inv & Hr).
    apply bind_Ok_inv in Hr as (v20 & h' & K20 & Hr).
    injection Hr as _ ->.
    split; [|by rewrite K20].
    destruct K7 as (vm & Kmode & Hm).
    split; [|split; [by exists vm, v7|by exists v20, h1]].
    unfold repr_keys.
    repeat (apply Forall_cons; split;
            [first [eassumption|eexists; eassumption]|]).
    constructor. }
  split; [|split; [split|]].
  - unfold repr_keys. intros Hin.
    repeat (apply elem_of_cons in Hin as [Hin|Hin]; [discriminate|]).
    by apply elem_of_nil in Hin.
  - intros Hp. destruct (repr_printable h Hp) as (s & Hs). by eexists _, _.
  - intros (s & h1 & Hr). by apply (Hinv s h1).
  - intros s h1 Hr. by apply (Hinv s h1).
Qed.

Lemma repr_succeeds_iff_witness :
  ∃ s h1, __repr__ favorite_state = (Ok s, h1).
Proof.
  apply (proj1 (proj1 (proj2 (repr_succeeds_iff favorite_state)))).
  split; [|split].
  - unfold repr_keys.
    repeat (apply Forall_cons; split; [eexists; reflexivity|]). constructor.
  - exists (VInt 2), Favorite. split; reflexivity.
  - eexists _, _. reflexivity.
Defined.

(** X12: [__repr__] raises what the first failing property raises:
    [KeyError] for [power] when that key is missing, whatever else the
    mapping holds, and the [ValueError] of the mode when the six keys
    read before it are present and the raw mode equals no member's
    code.  The state is unchanged. *)
Theorem repr_first_error h :
  (data (self h) !! "power" = None →
   __repr__ h = (Raise (KeyError "power"), h)) ∧
  (∀ v, Forall (λ key, is_Some (data (self h) !! key)) keys_before_mode →
        data (self h) !! "mode" = Some v →
        (∀ m, as_int v ≠ Some (OperationMode_value m)) →
        __repr__ h = (Raise (ValueError v), h)).
Proof.
  split.
  - intros Hp. unfold __repr__. apply bind_Raise.
    unfold power, is_on. apply bind_Raise. by apply getitem_None.
  - intros v Hkeys Hv Hno. unfold keys_before_mode in Hkeys.
    repeat (apply Forall_cons in Hkeys as [[? ?] Hkeys]).
    unfold __repr__.
    erewrite (bind_Ok power _ h _ h) by (by eapply power_run).
    erewrite (bind_Ok aqi _ h _ h) by (by eapply getitem_Some).
    erewrite (bind_Ok average_aqi _ h _ h) by (by eapply getitem_Some).
    erewrite (bind_Ok temperature _ h _ h)
      by (unfold temperature; rewrite guarded_getitem; by eapply getitem_Some).
    erewrite (bind_Ok humidity _ h _ h) by (by eapply getitem_Some).
    erewrite (bind_Ok fan_level _ h _ h) by (by eapply getitem_Some).
    apply bind_Raise.
    by rewrite (mode_run h v Hv), OperationMode_of_no_member.
Qed.

Lemma repr_first_error_witness :
  __repr__ empty_state = (Raise (KeyError "power"), empty_state) ∧
  __repr__ all_nines_state = (Raise (ValueError (VInt 9)), all_nines_state).
Proof.
  split.
  - apply (repr_first_error empty_state). reflexivity.
  - apply (proj2 (repr_first_error all_nines_state) (VInt 9)).
    + unfold keys_before_mode.
      repeat (apply Forall_cons; split; [eexists; reflexivity|]). constructor.
    + reflexivity.
    + intros m. destruct m; discriminate.
Defined.

(** ** What printing changes *)

Lemma bind_reader_state {A B} (c : M A) (f : A → M B) h :
  (c h).2 = h →
  ((c ≫= f) h).2 = h ∨ ∃ a, ((c ≫= f) h).2 = (f a h).2.
Proof.
  unfold mbind, M_bind. destruct (c h) as [[a|e] h1]; simpl; intros ->.
  - right. by exists a.
  - by left.
Qed.

Lemma bind_mret_state {A B} (c : M A) (g : A → B) h :
  ((c ≫= λ a, mret (g a)) h).2 = (c h).2.
Proof. unfold mbind, M_bind. by destruct (c h) as [[a|e] h1]. Qed.

Lemma filter_type_step h :
  (filter_type h).2 = h ∨
  ∃ product_id,
    data (self h) !! "filter_rfid_product_id" = Some (VStr product_id) ∧
    _filter_type_cache h !! product_id = None ∧
    (filter_type h).2
    = mkState (self h)
        (<[product_id := spec_classify (chomp product_id)]> (_filter_type_cache h)).
Proof.
  unfold filter_type, filter_rfid_tag, filter_rfid_product_id, mbind, M_bind,
    getitem, mret, M_ret, raise.
  destruct (data (self h) !! "filter_rfid_tag") as [tag|] eqn:Htag; [|by left].
  destruct (is_None tag); [by left|]. rewrite Htag.
  destruct (eq_str tag (lit "0:0:0:0:0:0:0")); [by left|].
  destruct (data (self h) !! "filter_rfid_product_id") as [pid|] eqn:Hpid;
    [|by left].
  destruct (is_None pid); [by left|]. rewrite Hpid.
  destruct pid as [|b|z|p]; try by left.
  rewrite get_filter_type_unfold.
  destruct (_filter_type_cache h !! p) eqn:Hp; [by left|].
  right. by exists p.
Qed.

(** X13: [__repr__] never changes the snapshot, and it changes the cache
    only as [filter_type] does: it leaves either the state it found or
    the state [filter_type] leaves; a cache of first-match categories
    stays one. *)
Theorem repr_frame h :
  ((__repr__ h).2 = h ∨ (__repr__ h).2 = (filter_type h).2) ∧
  self (__repr__ h).2 = self h ∧
  (cache_ok (_filter_type_cache h) →
   cache_ok (_filter_type_cache (__repr__ h).2)).
Proof.
  assert (Hstate : (__repr__ h).2 = h ∨ (__repr__ h).2 = (filter_type h).2).
  { unfold __repr__.
    do 19 (
      match goal with
      | |- context [(?c ≫= ?f) h] =>
          let Hc := fresh in
          assert (Hc : (c h).2 = h);
          [first
            [ apply getitem_state
            | apply guarded_getitem_state
            | apply (after_other A_power h); done
            | apply (after_other A_mode h); done
            | apply (after_other A_led_brightness h); done ]
          | destruct (bind_reader_state c f h Hc) as [->|[? ->]];
            [by left|]; clear Hc; cbv beta ]
      end).
    rewrite bind_mret_state. by right. }
  split; [exact Hstate|].
  destruct (filter_type_step h) as [Hft|(p & _ & _ & Hft)];
    destruct Hstate as [->| ->]; rewrite ?Hft; split; try done.
  - intros Hc. simpl. by apply cache_ok_insert.
Qed.

Lemma repr_frame_witness :
  self (__repr__ favorite_state).2 = self favorite_state ∧
  cache_ok (_filter_type_cache (__repr__ favorite_state).2).
Proof.
  split.
  - apply (repr_frame favorite_state).
  - apply (repr_frame favorite_state). apply cache_ok_empty.
Defined.

(** ** Growth of the cache *)

Lemma after_cache_step (a : accessor) (st : AirPurifierMiotStatus)
    (c : gmap pystr FilterType) :
  _filter_type_cache (after a (mkState st c)) = c ∨
  ∃ product_id,
    a = A_filter_type ∧
    data st !! "filter_rfid_product_id" = Some (VStr product_id) ∧
    c !! product_id = None ∧
    _filter_type_cache (after a (mkState st c))
    = <[product_id := spec_classify (chomp product_id)]> c.
Proof.
  destruct (decide (a = A_filter_type)) as [->|Hne].
  - simpl. destruct (filter_type_step (mkState st c)) as [->|(p & Hp & Hc & ->)];
      [by left|].
    right. by exists p.
  - left. by rewrite after_other.
Qed.

(** X14: a series of property reads adds at most one cache entry per
    read, and every key it adds is the string some snapshot of the
    series holds under [filter_rfid_product_id], read by [filter_type];
    entries present before the series keep their value. *)
Theorem cache_growth (l : list (AirPurifierMiotStatus * accessor))
    (c : gmap pystr FilterType) :
  (size (reads l c) ≤ size c + length l)%nat ∧
  (∀ k t, c !! k = Some t → reads l c !! k = Some t) ∧
  (∀ k, is_Some (reads l c !! k) →
        is_Some (c !! k) ∨
        ∃ st, (st, A_filter_type) ∈ l ∧
              data st !! "filter_rfid_product_id" = Some (VStr k)).
Proof.
  revert c. induction l as [|[st a] l IH]; intros c; simpl.
  - split; [lia|]. split; [done|]. intros k Hk. by left.
  - destruct (IH (_filter_type_cache (after a (mkState st c))))
      as (Hsize & Hkeep & Hkeys).
    destruct (after_cache_step a st c) as [Heq|(p & -> & Hp & Hc & Heq)];
      rewrite Heq in *.
    + split; [lia|]. split; [done|]. intros k Hk.
      destruct (Hkeys k Hk) as [?|(st' & Hin & Hst')]; [by left|].
      right. exists st'. split; [by apply list_elem_of_further|done].
    + rewrite map_size_insert_None in Hsize by done.
      split; [lia|]. split.
      * intros k t Hk. apply Hkeep. rewrite lookup_insert_ne; [done|].
        intros ->. congruence.
      * intros k Hk. destruct (Hkeys k Hk) as [Hins|(st' & Hin & Hst')].
        -- rewrite lookup_insert in Hins. case_decide as Hkp.
           ++ subst k. right. exists st. split; [apply list_elem_of_here|done].
           ++ by left.
        -- right. exists st'. split; [by apply list_elem_of_further|done].
Qed.

Lemma cache_growth_witness :
  reads [(self (tagged (Some (lit "1:2")) (Some (lit "0:0:41:30"))), A_filter_type)]
        {[lit "7:7:0:31" := AntiFormaldehyde]} !! lit "7:7:0:31"
  = Some AntiFormaldehyde.
Proof.
  apply (cache_growth
           [(self (tagged (Some (lit "1:2")) (Some (lit "0:0:41:30"))), A_filter_type)]
           {[lit "7:7:0:31" := AntiFormaldehyde]}).
  reflexivity.
Defined.

(** ** From the device to the printed snapshot *)

Lemma filter_type_returns h (tag product_id : option pystr) :
  data (self h) !! "filter_rfid_tag" = Some (raw tag) →
  data (self h) !! "filter_rfid_product_id" = Some (raw product_id) →
  ∃ ft h1, filter_type h = (Ok ft, h1).
Proof.
  intros Htag Hpid. unfold filter_type.
  rewrite (bind_Ok filter_rfid_tag _ h _ h (getitem_Some _ h _ Htag)).
  destruct tag as [t|]; cbn [raw is_None eq_str]; [|by eexists _, _].
  rewrite (bind_Ok filter_rfid_tag _ h _ h (getitem_Some _ h _ Htag)).
  cbn [raw is_None eq_str].
  destruct (bool_decide (t = lit "0:0:0:0:0:0:0")); [by eexists _, _|].
  rewrite (bind_Ok filter_rfid_product_id _ h _ h (getitem_Some _ h _ Hpid)).
  destruct product_id as [p|]; cbn [raw is_None]; [|by eexists _, _].
  rewrite (bind_Ok filter_rfid_product_id _ h _ h (getitem_Some _ h _ Hpid)).
  cbn [raw]. rewrite get_filter_type_unfold.
  destruct (_filter_type_cache h !! p); by eexists _, _.
Qed.

(** X15: when every entry of the device's answer holds its name and its
    value and the answer names every registered property, [status]
    returns a snapshot; [__repr__] prints that snapshot without error,
    whatever the cache holds, as soon as its raw mode decodes and its
    two RFID fields are [None] or strings: nothing printed depends on a
    key outside the table. *)
Theorem status_then_repr get_reply props (log : list call) :
  get_reply mapping = Ok props →
  Forall complete props →
  (∀ k, k ∈ mapping.*1 → Some k ∈ did <$> props) →
  ∃ st,
    status get_reply log = (Ok st, (log ++ [GetProperties mapping])%list) ∧
    ∀ (vm : value) (m : OperationMode) (tag product_id : option pystr)
      (c : gmap pystr FilterType),
      data st !! "mode" = Some vm →
      OperationMode_of vm = Ok m →
      data st !! "filter_rfid_tag" = Some (raw tag) →
      data st !! "filter_rfid_product_id" = Some (raw product_id) →
      ∃ s h1, __repr__ (mkState st c) = (Ok s, h1).
Proof.
  intros Hreply Hcomplete Hall.
  rewrite (status_run get_reply props log Hreply).
  destruct (dict_from_complete ∅ props Hcomplete) as [d Hd].
  unfold dict_of. rewrite Hd. exists (mkStatus d). split; [done|].
  intros vm m tag product_id c Hmode Hm Htag Hpid.
  assert (Hp : printable (mkState (mkStatus d) c)).
  { split; [|split].
    - apply dict_from_Ok in Hd as [_ Hkeys]. unfold repr_keys.
      repeat (apply Forall_cons; split;
        [apply Hkeys; right; apply Hall, (bool_decide_unpack _);
         by vm_compute|]).
      constructor.
    - by exists vm, m.
    - by apply (filter_type_returns _ tag product_id). }
  destruct (repr_printable _ Hp) as (s & Hs). eexists s, _. exact Hs.
Qed.

Lemma status_then_repr_witness :
  ∃ st,
    status favorite_device [] = (Ok st, [GetProperties mapping]) ∧
    ∃ s h1, __repr__ (mkState st ∅) = (Ok s, h1).
Proof.
  destruct (status_then_repr favorite_device (answers favorite_mode mapping) [])
    as (st & Hst & Hrepr).
  - reflexivity.
  - repeat (constructor; [split; eexists; reflexivity|]). constructor.
  - intros k Hk. unfold answers. rewrite <- list_fmap_compose. simpl.
    by apply (list_elem_of_fmap_2 Some) in Hk; rewrite <- list_fmap_compose in Hk.
  - exists st. split; [exact Hst|].
    assert (st = mkStatus (mapping_of favorite_mode)) as ->.
    { vm_compute in Hst. injection Hst as <-. reflexivity. }
    apply (Hrepr (VInt 2) Favorite None None ∅); reflexivity.
Defined.
